(** * GEOLIB::Grid<POINT> (GEO/Grid.h): the uniform spatial grid of OpenGeoSys 5

    A shallow embedding of the class template [Grid<POINT>] and of its two
    public queries, [getNearestPoint] and [getPointsWithinCube], with the
    private helpers they call; and of [binarySearch] of FEM/mathlib.cpp.

    Conventions of the embedding.

    - [double] is modelled by the rationals [Q] with exact arithmetic;
      rounding, infinities and NaN are not modelled. Division by zero, which
      yields an infinity or a NaN in C++, yields 0 in [Q]; no closed example
      divides by zero. The closed examples are evaluations of the algorithm
      as written, in exact arithmetic. Of the general statements, those
      about the cell counts of collinear points and about the face distances
      of the first cell are statements about exact arithmetic as well. All
      others are proved from the loops, the indices and the outcomes of the
      comparisons alone: no step of their proofs uses a property of the
      arithmetic on doubles other than that their comparison is a total
      order, and none of them says in which cell a coordinate falls.
    - [size_t] is modelled by [Z] with the wrap-around modulo 2^64 written
      out ([wrap]).
    - [sqrt] and [pow(., 1. / 3.)] of <cmath> are irrational: they are
      parameters of the development, and every general statement holds for
      each choice of them. Closed examples use the reference functions
      [sqrt_ref] and [pow_third_ref], which round upwards.
    - [MathLib::sqrDist] is declared in MathTools.h, which is not among the
      source files: it is a parameter as well, one function of two
      coordinate triples for its overloads on arrays and on points, so that
      the statements about the scans hold for the distances as the machine
      computes them. Closed examples use the squared Euclidean distance
      [sqrDist_ref].
    - The template parameter [POINT] with its accessor [getData] is a
      parameter too; buckets hold values of [POINT] the way the C++ buckets
      hold [POINT*].
    - The array [_grid_quad_to_node_map] is a map from the index relative to
      the array base to a vector; the allocated part is [0, n_buckets).  A
      [push_back] of the constructor through an index outside of it is
      recorded at that index. A read of a query through an index outside of
      it is undefined behaviour: the query ends there, with [Undefined].
    - The constructor is a function from the input to the grid and the text
      written to [std::cout]; it is the release build (NDEBUG), the debug
      assertion is the predicate [debug_assertion].
    - The [const] queries are written in a state monad over the grid object:
      a computation ends by returning a value, by an undefined read, or by
      running out of the fuel given to the [while] loop of the ring search,
      and in each case it hands on the object as it is at that moment, so
      that leaving the object unchanged is a statement about every run, also
      about one that does not return. *)

From Stdlib Require Import String ZArith QArith Qround Qabs List Lia Lqa Bool.
Import ListNotations.
Open Scope Q_scope.

#[local] Set Default Proof Using "Type".

(** ** Numbers *)

Definition double : Type := Q.
Definition size_t : Type := Z.

Definition size_t_modulus : Z := 2 ^ 64.

(** Arithmetic on [size_t] is modulo 2^64. *)
Definition wrap (z : Z) : size_t := (z mod size_t_modulus)%Z.

(** [x < y] and [x == y] on doubles, as booleans. *)
Definition Qltb (x y : Q) : bool := negb (Qle_bool y x).

(** Conversion of a [size_t] to [double]. *)
Definition Zd (z : Z) : double := inject_Z z.

(** Truncation towards zero. *)
Definition Qtrunc (x : Q) : Z :=
  if Qle_bool 0 x then Qfloor x else Qceiling x.

(** [static_cast<size_t>(x)]: truncation; the C++ conversion is defined for
    -1 < x < 2^64 only, where [wrap] is the identity. *)
Definition to_size_t (x : double) : size_t := wrap (Qtrunc x).

Definition ceil (x : double) : double := inject_Z (Qceiling x).

Definition fabs (x : double) : double := Qabs x.

(** [std::numeric_limits<double>::epsilon()] and the literal [1e-6]. *)
Definition epsilon : double := 1 # (2 ^ 52).
Definition one_millionth : double := 1 # 1000000.

(** ** Arrays of three components *)

Record vec3 (A : Type) : Type := mk3 { c0 : A; c1 : A; c2 : A }.
Arguments mk3 {A} _ _ _.
Arguments c0 {A} _.
Arguments c1 {A} _.
Arguments c2 {A} _.

(** [v[k]] for k = 0, 1, 2. *)
Definition at3 {A : Type} (v : vec3 A) (k : nat) : A :=
  match k with
  | O => c0 v
  | S O => c1 v
  | _ => c2 v
  end.

(** An array filled by [for (k = 0; k < 3; k++) v[k] = f k]. *)
Definition build3 {A : Type} (f : nat -> A) : vec3 A :=
  mk3 (f 0%nat) (f 1%nat) (f 2%nat).

(** ** The bounding box *)

(** Modelled from the spec: AxisAlignedBoundingBox.h is not among the source
    files. The box has two corners and is updated incrementally with a
    coordinate; folding the update over the points gives their least and
    greatest coordinate on each axis. The corners of a box that was updated
    with no point are not fixed by the spec: the model puts them at the
    origin, and they matter for an empty collection only. *)
Record AABB : Type := mkAABB { aabb_min : vec3 double; aabb_max : vec3 double }.

Definition AABB_update (b : AABB) (p : vec3 double) : AABB :=
  mkAABB
    (build3 (fun k => if Qltb (at3 p k) (at3 (aabb_min b) k)
                      then at3 p k else at3 (aabb_min b) k))
    (build3 (fun k => if Qltb (at3 (aabb_max b) k) (at3 p k)
                      then at3 p k else at3 (aabb_max b) k)).

Definition AABB_of (coords : list (vec3 double)) : AABB :=
  match coords with
  | [] => mkAABB (mk3 0 0 0) (mk3 0 0 0)
  | p :: ps => fold_left AABB_update ps (mkAABB p p)
  end.

(** ** Loops over a range of [size_t] *)

(** The values taken by [t] in [for (t = s; t < e; t++)]: s, s+1, ..., e-1,
    none when [e <= s]. As [t < e] holds before each increment, the increment
    never wraps. *)
Definition range (s e : Z) : list Z :=
  map (fun i => (s + Z.of_nat i)%Z) (seq 0 (Z.to_nat (e - s))).

(** ** How a computation ends *)

Inductive outcome (A : Type) : Type :=
| Returned (a : A)   (* the call returns [a] *)
| Undefined          (* a read outside of an array: undefined behaviour *)
| OutOfFuel.         (* a [while] loop did not end within the fuel *)

Arguments Returned {A} a.
Arguments Undefined {A}.
Arguments OutOfFuel {A}.

Section Grid.

(** The template parameter and its coordinate accessor. *)
Variable POINT : Type.
Variable getData : POINT -> vec3 double.

(** [MathLib::sqrDist] of MathTools.h. *)
Variable sqrDist : vec3 double -> vec3 double -> double.

(** [sqrt] of <cmath>, and [pow] at its only use, [pow(x, 1. / 3.)]. *)
Variable sqrt : double -> double.
Variable pow_third : double -> double.

(** ** The grid object *)

Record Grid : Type := mkGrid {
  _min_pnt : vec3 double;
  _max_pnt : vec3 double;
  _step_sizes : vec3 double;
  _inverse_step_sizes : vec3 double;
  _n_steps : vec3 size_t;
  _grid_quad_to_node_map : Z -> list POINT   (* by index from the array base *)
}.

(** The length of the allocated array:
    [new std::vector<POINT*>[n_plane * _n_steps[2]]]. *)
Definition n_buckets (g : Grid) : size_t :=
  wrap (wrap (c0 (_n_steps g) * c1 (_n_steps g)) * c2 (_n_steps g)).

(** ** Construction (Grid.h, lines 143-284) *)

(** Lines 155-165: the upper corner of one axis after the enlargement. *)
Definition inflate_max (mn mx : double) : double :=
  let mx1 := mx + Qabs mx * one_millionth in
  if Qltb (fabs mx1) epsilon
  then (mx1 - mn) * (1 + one_millionth)
  else mx1.

(** [fabs(d) < epsilon]. *)
Definition is_zero_extent (d : double) : bool := Qltb (fabs d) epsilon.

(** Lines 171-241: the number of cells per axis. *)
Definition compute_n_steps (n_pnts max_num_per_grid_cell : size_t)
    (delta : vec3 double) : vec3 size_t :=
  let d0 := c0 delta in
  let d1 := c1 delta in
  let d2 := c2 delta in
  let one_d := to_size_t (ceil (Zd n_pnts / Zd max_num_per_grid_cell)) in
  if is_zero_extent d1 || is_zero_extent d2 then
    if is_zero_extent d1 && is_zero_extent d2 then
      mk3 one_d 1%Z 1%Z
    else if is_zero_extent d0 && is_zero_extent d2 then
      mk3 1%Z one_d 1%Z
    else if is_zero_extent d0 && is_zero_extent d1 then
      mk3 1%Z 1%Z one_d
    else if is_zero_extent d1 then
      let n0 := to_size_t
        (ceil (sqrt (Zd n_pnts * d0 / (Zd max_num_per_grid_cell * d2)))) in
      mk3 n0 1%Z (to_size_t (ceil (Zd n0 * d2 / d0)))
    else
      let n0 := to_size_t
        (ceil (sqrt (Zd n_pnts * d0 / (Zd max_num_per_grid_cell * d1)))) in
      mk3 n0 (to_size_t (ceil (Zd n0 * d1 / d0))) 1%Z
  else
    let n0 := to_size_t
      (ceil (pow_third
               (Zd n_pnts * d0 * d0 / (Zd max_num_per_grid_cell * d1 * d2)))) in
    mk3 n0 (to_size_t (ceil (Zd n0 * d1 / d0)))
           (to_size_t (ceil (Zd n0 * d2 / d0))).

(** Lines 247-254. *)
Definition step_size (d : double) (n : size_t) : double := d / Zd n.

Definition inverse_step_size (s : double) : double :=
  if Qeq_bool s 0 then 1 else 1 / s.

(** Lines 260-265: the cell coordinate of a point on axis [k]. *)
Definition cell_coord (mn inv : vec3 double) (pnt : vec3 double) (k : nat)
    : size_t :=
  to_size_t ((at3 pnt k - at3 mn k) * at3 inv k).

(** [i + j * _n_steps[0] + k * n_plane]. *)
Definition flat_index (n_steps : vec3 size_t) (ijk : vec3 size_t) : size_t :=
  wrap (c0 ijk + c1 ijk * c0 n_steps
        + c2 ijk * wrap (c0 n_steps * c1 n_steps)).

(** [v[idx].push_back(p)] for the vector at index [idx] of the array. *)
Definition push_back_at (m : Z -> list POINT) (idx : Z) (p : POINT)
    : Z -> list POINT :=
  fun i => if (i =? idx)%Z then m i ++ [p] else m i.

Definition error_message : string := "error computing indices ".

(** Lines 257-275: one iteration of the filling loop. The message is written
    when a coordinate is out of range, and the point is pushed afterwards in
    either case. *)
Definition fill_step (mn inv : vec3 double) (n_steps : vec3 size_t)
    (st : (Z -> list POINT) * list string) (p : POINT)
    : (Z -> list POINT) * list string :=
  let ijk := build3 (cell_coord mn inv (getData p)) in
  let log :=
    if (c0 n_steps <=? c0 ijk)%Z || (c1 n_steps <=? c1 ijk)%Z
       || (c2 n_steps <=? c2 ijk)%Z
    then snd st ++ [error_message] else snd st in
  (push_back_at (fst st) (flat_index n_steps ijk) p, log).

(** Lines 148-165: the corners of the box after the enlargement, and the
    array [delta]. *)
Definition box_min (pnts : list POINT) : vec3 double :=
  aabb_min (AABB_of (map getData pnts)).

Definition box_max (pnts : list POINT) : vec3 double :=
  build3 (fun k => inflate_max (at3 (box_min pnts) k)
                               (at3 (aabb_max (AABB_of (map getData pnts))) k)).

Definition box_delta (pnts : list POINT) : vec3 double :=
  build3 (fun k => at3 (box_max pnts) k - at3 (box_min pnts) k).

(** The constructor: the grid, and what was written to [std::cout]. *)
Definition Grid_ctor (pnts : list POINT) (max_num_per_grid_cell : size_t)
    : Grid * list string :=
  let n_pnts := Z.of_nat (length pnts) in
  let mn := box_min pnts in
  let mx := box_max pnts in
  let delta := box_delta pnts in
  let n_steps := compute_n_steps n_pnts max_num_per_grid_cell delta in
  let steps := build3 (fun k => step_size (at3 delta k) (at3 n_steps k)) in
  let inv := build3 (fun k => inverse_step_size (at3 steps k)) in
  let filled := fold_left (fill_step mn inv n_steps) pnts (fun _ => [], []) in
  (mkGrid mn mx steps inv n_steps (fst filled), snd filled).

(** Lines 277-283, compiled in debug builds only:
    [assert(n_pnts == pnts_cnt)]. *)
Definition bucket_sizes_sum (g : Grid) : Z :=
  fold_left
    (fun acc k => (acc + Z.of_nat (length (_grid_quad_to_node_map g k)))%Z)
    (range 0 (n_buckets g)) 0%Z.

Definition debug_assertion (g : Grid) (n_pnts : Z) : bool :=
  (n_pnts =? bucket_sizes_sum g)%Z.

(** ** Methods of the object: a state monad over [Grid]

    A computation receives the object, and gives how it ends and the object
    as it is then. *)

Definition M (A : Type) : Type := Grid -> outcome A * Grid.

Definition ret {A : Type} (a : A) : M A := fun g => (Returned a, g).

Definition bind {A B : Type} (m : M A) (f : A -> M B) : M B :=
  fun g => match m g with
           | (Returned a, g') => f a g'
           | (Undefined, g') => (Undefined, g')
           | (OutOfFuel, g') => (OutOfFuel, g')
           end.

(** Reading a member of the object. *)
Definition member {A : Type} (field : Grid -> A) : M A :=
  fun g => (Returned (field g), g).

(** Assigning to members of the object, as a method that is not [const]
    may. *)
Definition assign (f : Grid -> Grid) : M unit :=
  fun g => (Returned tt, f g).

(** [_grid_quad_to_node_map[idx]], read: the array was allocated with
    [n_buckets] vectors, and a read through an index outside of it is
    undefined. *)
Definition bucket_at (idx : size_t) : M (list POINT) :=
  fun g => if (0 <=? idx)%Z && (idx <? n_buckets g)%Z
           then (Returned (_grid_quad_to_node_map g idx), g)
           else (Undefined, g).

Definition out_of_fuel {A : Type} : M A := fun g => (OutOfFuel, g).

Notation "x <- m ;; k" := (bind m (fun x => k))
  (at level 61, m at next level, right associativity).

(** [for (t = s; t < e; t++) body], with the variables the body assigns
    threaded through as [st]. *)
Fixpoint for_each {S : Type} (ts : list Z) (body : Z -> S -> M S) (st : S)
    : M S :=
  match ts with
  | [] => ret st
  | t :: ts' => st' <- body t st ;; for_each ts' body st'
  end.

Definition for_range {S : Type} (s e : Z) (body : Z -> S -> M S) (st : S)
    : M S :=
  for_each (range s e) body st.

(** ** getGridCoords (lines 523-545) *)

(** The body of the loop over the three axes. The product is the exact one:
    rounded to a double it can reach [n_k] for a coordinate just below
    [max_k] as it does for [max_k] itself, and fall on the other side of a
    cell boundary; no statement below relies on where it falls. *)
Definition resolve_coord (min_k max_k inv_k : double) (n_k : size_t)
    (x : double) : size_t :=
  if Qltb x min_k then 0%Z
  else if Qltb max_k x then wrap (n_k - 1)
  else to_size_t ((x - min_k) * inv_k).

Definition getGridCoords (pnt : vec3 double) : M (vec3 size_t) :=
  min_pnt <- member _min_pnt ;;
  max_pnt <- member _max_pnt ;;
  n_steps <- member _n_steps ;;
  inv <- member _inverse_step_sizes ;;
  ret (build3 (fun k =>
    resolve_coord (at3 min_pnt k) (at3 max_pnt k) (at3 inv k) (at3 n_steps k)
                  (at3 pnt k))).

(** ** getPointCellBorderDistances (lines 574-587)

    The six values in the order of the array [dists]: bottom, front, right,
    back, left, top. *)
Record border_dists : Type := mkDists {
  dist_bottom : double;   (* dists[0] *)
  dist_front : double;    (* dists[1] *)
  dist_right : double;    (* dists[2] *)
  dist_back : double;     (* dists[3] *)
  dist_left : double;     (* dists[4] *)
  dist_top : double       (* dists[5] *)
}.

Definition getPointCellBorderDistances (pnt : vec3 double)
    (coords : vec3 size_t) : M border_dists :=
  min_pnt <- member _min_pnt ;;
  steps <- member _step_sizes ;;
  let d0 := c2 pnt - c2 min_pnt + Zd (c2 coords) * c2 steps in
  let d5 := c2 steps - d0 in
  let d1 := c1 pnt - c1 min_pnt + Zd (c1 coords) * c1 steps in
  let d3 := c1 steps - d1 in
  let d4 := c0 pnt - c0 min_pnt + Zd (c0 coords) * c0 steps in
  let d2 := c0 steps - d4 in
  ret (mkDists d0 d1 d2 d3 d4 d5).

(** ** calcNearestPointInGridCell (lines 547-572)

    [None] is the return value [false], which leaves both reference
    parameters as they were; [Some (d, p)] is [true] with the values written
    to [sqr_min_dist] and [nearest_pnt]. *)
Definition nearer (pnt : vec3 double) (best : double * POINT) (p : POINT)
    : double * POINT :=
  let sqr_dist := sqrDist (getData p) pnt in
  if Qltb sqr_dist (fst best) then (sqr_dist, p) else best.

(** Lines 556-571: the scan of one vector. *)
Definition scan_bucket (pnt : vec3 double) (pnts : list POINT)
    : option (double * POINT) :=
  match pnts with
  | [] => None
  | p0 :: rest =>
      Some (fold_left (nearer pnt) rest (sqrDist (getData p0) pnt, p0))
  end.

Definition calcNearestPointInGridCell (pnt : vec3 double)
    (coords : vec3 size_t) : M (option (double * POINT)) :=
  n_steps <- member _n_steps ;;
  let grid_idx :=
    wrap (c0 coords + c1 coords * c0 n_steps
          + c2 coords * c0 n_steps * c1 n_steps) in
  pnts <- bucket_at grid_idx ;;
  ret (scan_bucket pnt pnts).

(** ** getPointsWithinCube (lines 379-419)

    [pnts] is the vector of the caller, passed by reference: the computation
    returns it as the call leaves it. *)
Definition push_back (v : list POINT) (p : POINT) : list POINT := v ++ [p].

Definition getPointsWithinCube (pnt : vec3 double) (half_len : double)
    (pnts : list POINT) : M (list POINT) :=
  min_coords <- getGridCoords (build3 (fun k => at3 pnt k - half_len)) ;;
  max_coords <- getGridCoords (build3 (fun k => at3 pnt k + half_len)) ;;
  n_steps <- member _n_steps ;;
  let steps0_x_steps1 := wrap (c0 n_steps * c1 n_steps) in
  for_range (c0 min_coords) (wrap (c0 max_coords + 1)) (fun x0 pnts =>
    for_range (c1 min_coords) (wrap (c1 max_coords + 1)) (fun x1 pnts =>
      let coords0_p_coords1_x_steps0 := wrap (x0 + x1 * c0 n_steps) in
      for_range (c2 min_coords) (wrap (c2 max_coords + 1)) (fun x2 pnts =>
        bucket <- bucket_at
          (wrap (coords0_p_coords1_x_steps0 + x2 * steps0_x_steps1)) ;;
        ret (fold_left push_back bucket pnts))
      pnts) pnts) pnts.

(** ** getNearestPoint (lines 286-377) *)

(** Lines 318-355: one pass of the [while] loop, all cells [tmp_coords] with
    [coords[k] - offset <= tmp_coords[k] < coords[k] + offset] in [size_t]
    arithmetic. The state is ([sqr_min_dist], [nearest_pnt]), [None] being
    the NULL pointer. *)
Definition ring_cell (pnt : vec3 double) (coords tmp_coords : vec3 size_t)
    (st : double * option POINT) : M (double * option POINT) :=
  if negb ((c0 tmp_coords =? c0 coords)%Z && (c1 tmp_coords =? c1 coords)%Z
           && (c2 tmp_coords =? c2 coords)%Z)
  then
    n_steps <- member _n_steps ;;
    if (c0 tmp_coords <? c0 n_steps)%Z && (c1 tmp_coords <? c1 n_steps)%Z
       && (c2 tmp_coords <? c2 n_steps)%Z
    then
      r <- calcNearestPointInGridCell pnt tmp_coords ;;
      match r with
      | Some (sqr_min_dist_tmp, nearest_pnt_tmp) =>
          if Qltb sqr_min_dist_tmp (fst st)
          then ret (sqr_min_dist_tmp, Some nearest_pnt_tmp)
          else ret st
      | None => ret st
      end
    else ret st
  else ret st.

Definition ring_pass (pnt : vec3 double) (coords : vec3 size_t)
    (offset : size_t) (st : double * option POINT)
    : M (double * option POINT) :=
  for_range (wrap (c0 coords - offset)) (wrap (c0 coords + offset))
    (fun t0 st =>
  for_range (wrap (c1 coords - offset)) (wrap (c1 coords + offset))
    (fun t1 st =>
  for_range (wrap (c2 coords - offset)) (wrap (c2 coords + offset))
    (fun t2 st => ring_cell pnt coords (mk3 t0 t1 t2) st) st) st) st.

(** Lines 313-357: [while (nearest_pnt == NULL) { pass; offset++; }]. The
    loop is entered with [nearest_pnt == NULL]; it is left with the point
    found. *)
Fixpoint ring_search (fuel : nat) (pnt : vec3 double) (coords : vec3 size_t)
    (offset : size_t) (sqr_min_dist : double) : M (double * POINT) :=
  match fuel with
  | O => out_of_fuel
  | S fuel' =>
      st <- ring_pass pnt coords offset (sqr_min_dist, None) ;;
      match snd st with
      | Some nearest_pnt => ret (fst st, nearest_pnt)
      | None => ring_search fuel' pnt coords (wrap (offset + 1)) (fst st)
      end
  end.

(** Lines 366-374: one iteration of the last loop. *)
Definition nearer_of (pnt : vec3 double) (best : double * POINT) (p : POINT)
    : double * POINT :=
  let sqr_dist := sqrDist pnt (getData p) in
  if Qltb sqr_dist (fst best) then (sqr_dist, p) else best.

(** Lines 360-376: the points of the cube around [pnt] that reaches the
    candidate are compared with it. *)
Definition nearest_in_cube (pnt : vec3 double) (sqr_min_dist : double)
    (nearest_pnt : POINT) : M (option POINT) :=
  let len := sqrt (sqrDist pnt (getData nearest_pnt)) in
  pnts <- getPointsWithinCube pnt len [] ;;
  ret (Some (snd (fold_left (nearer_of pnt) pnts (sqr_min_dist, nearest_pnt)))).

(** [a >= b] on doubles. *)
Definition Qgeb (a b : double) : bool := Qle_bool b a.

Definition getNearestPoint (fuel : nat) (pnt : vec3 double)
    : M (option POINT) :=
  coords <- getGridCoords pnt ;;
  min_pnt <- member _min_pnt ;;
  max_pnt <- member _max_pnt ;;
  let sqr_min_dist := sqrDist min_pnt max_pnt in
  dists <- getPointCellBorderDistances pnt coords ;;
  found <- calcNearestPointInGridCell pnt coords ;;
  match found with
  | Some (sqr_min_dist, nearest_pnt) =>
      let min_dist := sqrt sqr_min_dist in
      if Qgeb (dist_bottom dists) min_dist && Qgeb (dist_front dists) min_dist
         && Qgeb (dist_right dists) min_dist && Qgeb (dist_back dists) min_dist
         && Qgeb (dist_left dists) min_dist && Qgeb (dist_top dists) min_dist
      then ret (Some nearest_pnt)
      else nearest_in_cube pnt sqr_min_dist nearest_pnt
  | None =>
      found <- ring_search fuel pnt coords 1%Z sqr_min_dist ;;
      nearest_in_cube pnt (fst found) (snd found)
  end.

End Grid.

Arguments mkGrid {POINT} _ _ _ _ _ _.
Arguments _min_pnt {POINT} _.
Arguments _max_pnt {POINT} _.
Arguments _step_sizes {POINT} _.
Arguments _inverse_step_sizes {POINT} _.
Arguments _n_steps {POINT} _.
Arguments _grid_quad_to_node_map {POINT} _ _.
Arguments n_buckets {POINT} _.
Arguments bucket_sizes_sum {POINT} _.
Arguments debug_assertion {POINT} _ _.
Arguments M _ _ : clear implicits.
Arguments ret {POINT A} _ _.
Arguments bind {POINT A B} _ _ _.
Arguments member {POINT A} _ _.
Arguments assign {POINT} _ _.
Arguments bucket_at {POINT} _ _.
Arguments out_of_fuel {POINT A} _.
Arguments for_each {POINT S} _ _ _ _.
Arguments for_range {POINT S} _ _ _ _ _.
Arguments getGridCoords {POINT} _ _.
Arguments getPointCellBorderDistances {POINT} _ _ _.
Arguments push_back {POINT} _ _.
Arguments push_back_at {POINT} _ _ _ _.

(** ** Reference functions for closed examples *)

(** The squared Euclidean distance. *)
Definition sqrDist_ref (p q : vec3 double) : double :=
  (c0 p - c0 q) * (c0 p - c0 q) +
  (c1 p - c1 q) * (c1 p - c1 q) +
  (c2 p - c2 q) * (c2 p - c2 q).

(** An upper approximation of the square root, exact to 2^-64. *)
Definition sqrt_ref (x : double) : double :=
  if Qle_bool x 0 then 0
  else Z.sqrt_up (Qceiling (x * inject_Z (2 ^ 128))) # (2 ^ 64).

(** The greatest [r] below [2 ^ bits], added to the [r] given, whose cube is
    less than [n]: one bit of it at a time, from the highest. *)
Fixpoint cube_root_bits (bits : nat) (n r : Z) : Z :=
  match bits with
  | O => r
  | S b =>
      let r' := (r + 2 ^ Z.of_nat b)%Z in
      cube_root_bits b n (if (r' * r' * r' <? n)%Z then r' else r)
  end.

(** The least [r >= 0] with [n <= r^3]. *)
Definition Zcbrt_up (n : Z) : Z :=
  if (n <=? 0)%Z then 0%Z
  else (cube_root_bits (S (Z.to_nat (Z.log2 n))) n 0 + 1)%Z.

(** An upper approximation of the cube root, exact to 2^-32. *)
Definition pow_third_ref (x : double) : double :=
  if Qle_bool x 0 then 0
  else Zcbrt_up (Qceiling (x * inject_Z (2 ^ 96))) # (2 ^ 32).

(** ** Points with coordinates only, for closed examples *)

Definition Pnt : Type := vec3 double.
Definition Pnt_getData (p : Pnt) : vec3 double := p.

Definition build (pnts : list Pnt) (max_num_per_grid_cell : size_t)
    : Grid Pnt :=
  fst (Grid_ctor Pnt Pnt_getData sqrt_ref pow_third_ref pnts
         max_num_per_grid_cell).

Definition build_log (pnts : list Pnt) (max_num_per_grid_cell : size_t)
    : list string :=
  snd (Grid_ctor Pnt Pnt_getData sqrt_ref pow_third_ref pnts
         max_num_per_grid_cell).

(** ** Inputs of the closed examples *)

(** Three points on the first coordinate axis; with one point per cell the
    grid has three cells along it, the one in the middle empty. *)
Definition line3 : list Pnt := [mk3 0 0 0; mk3 (1 # 10) 0 0; mk3 3 0 0].

(** Two points on the first coordinate axis. *)
Definition pair02 : list Pnt := [mk3 0 0 0; mk3 2 0 0].

(** Two points on the second coordinate axis. *)
Definition pair_y : list Pnt := [mk3 0 0 0; mk3 0 1 0].

(** Two points on a line parallel to the first axis, at y = 1. *)
Definition line_y1 : list Pnt := [mk3 0 1 0; mk3 1 1 0].

(** Two points on the second coordinate axis, 1e-20 apart. *)
Definition pair_y_close : list Pnt := [mk3 0 0 0; mk3 0 (1 # 10 ^ 20) 0].

(** Two points with small positive coordinates, 1e-17 and 2e-17. *)
Definition tiny_p1 : Pnt := mk3 (1 # 10 ^ 17) 0 0.
Definition tiny_p2 : Pnt := mk3 (2 # 10 ^ 17) 0 0.
Definition tiny : list Pnt := [tiny_p1; tiny_p2].

(** Nine points in the cube [0, 3]^3, none of them near the corner
    (3, 3, 3). *)
Definition cube9 : list Pnt :=
  [mk3 0 0 0; mk3 3 0 0; mk3 0 3 0; mk3 0 0 3; mk3 1 0 0; mk3 0 1 0;
   mk3 0 0 1; mk3 1 1 0; mk3 1 0 1].

(** ** Vocabulary of the statements *)

(** The computation [m], started on the object [g], returns [a] and leaves
    the object as it was. *)
Definition returns {POINT A : Type} (m : M POINT A) (g : Grid POINT) (a : A)
    : Prop :=
  m g = (Returned a, g).

(** The computation [m] leaves the object as it was, however it ends. *)
Definition leaves_object {POINT A : Type} (m : M POINT A) : Prop :=
  forall g, snd (m g) = g.

(** The cell coordinates [getGridCoords] resolves [pnt] to. *)
Definition grid_coords {POINT : Type} (g : Grid POINT) (pnt : vec3 double)
    : vec3 size_t :=
  build3 (fun k =>
    resolve_coord (at3 (_min_pnt g) k) (at3 (_max_pnt g) k)
                  (at3 (_inverse_step_sizes g) k) (at3 (_n_steps g) k)
                  (at3 pnt k)).

(** The cell counts of a grid subdivided along axis [k] only. *)
Definition axis_counts (k : nat) (n : size_t) : vec3 size_t :=
  build3 (fun j => if Nat.eqb j k then n else 1%Z).

(** All points lie on a line parallel to axis [k]: their other two
    coordinates are those of [a]. *)
Definition collinear_along (k : nat) (a : vec3 double)
    (coords : list (vec3 double)) : Prop :=
  forall p j, In p coords -> (j < 3)%nat -> j <> k -> at3 p j == at3 a j.

(** The distances of [pnt] to the six planes that bound the cell [coords]:
    on axis [k] the planes at [_min_pnt[k] + coords[k] * _step_sizes[k]] and
    one step further. *)
Definition lower_plane {POINT : Type} (g : Grid POINT) (coords : vec3 size_t)
    (k : nat) : double :=
  at3 (_min_pnt g) k + Zd (at3 coords k) * at3 (_step_sizes g) k.

Definition upper_plane {POINT : Type} (g : Grid POINT) (coords : vec3 size_t)
    (k : nat) : double :=
  lower_plane g coords k + at3 (_step_sizes g) k.

Definition perpendicular_distances {POINT : Type} (g : Grid POINT)
    (pnt : vec3 double) (coords : vec3 size_t) : border_dists :=
  mkDists
    (Qabs (c2 pnt - lower_plane g coords 2))    (* bottom *)
    (Qabs (c1 pnt - lower_plane g coords 1))    (* front *)
    (Qabs (c0 pnt - upper_plane g coords 0))    (* right *)
    (Qabs (c1 pnt - upper_plane g coords 1))    (* back *)
    (Qabs (c0 pnt - lower_plane g coords 0))    (* left *)
    (Qabs (c2 pnt - upper_plane g coords 2)).   (* top *)

Definition dists_eq (a b : border_dists) : Prop :=
  dist_bottom a == dist_bottom b /\ dist_front a == dist_front b /\
  dist_right a == dist_right b /\ dist_back a == dist_back b /\
  dist_left a == dist_left b /\ dist_top a == dist_top b.

(** The bucket of the cell [coords], as the queries address it. *)
Definition bucket {POINT : Type} (g : Grid POINT) (coords : vec3 size_t)
    : list POINT :=
  _grid_quad_to_node_map g
    (wrap (c0 coords + c1 coords * c0 (_n_steps g)
           + c2 coords * c0 (_n_steps g) * c1 (_n_steps g))).

(** The vector of the cell [coords] lies in the allocated array. *)
Definition cell_in_array {POINT : Type} (g : Grid POINT)
    (coords : vec3 size_t) : bool :=
  (wrap (c0 coords + c1 coords * c0 (_n_steps g)
         + c2 coords * c0 (_n_steps g) * c1 (_n_steps g))
   <? n_buckets g)%Z.

(** A candidate held by the ring search is a point of some bucket, with its
    squared distance; [None] is the NULL pointer. *)
Definition candidate_ok {POINT : Type} (getData : POINT -> vec3 double)
    (sqrDist : vec3 double -> vec3 double -> double)
    (g : Grid POINT) (pnt : vec3 double) (st : double * option POINT) : Prop :=
  match snd st with
  | None => True
  | Some p => fst st = sqrDist (getData p) pnt /\
              exists cell, In p (bucket g cell)
  end.

(** The buckets of all cells between two corners, both included, axis 0
    outermost, one after the other. *)
Definition cube_contents {POINT : Type} (g : Grid POINT)
    (min_coords max_coords : vec3 size_t) : list POINT :=
  flat_map (fun x0 =>
    flat_map (fun x1 =>
      flat_map (fun x2 => bucket g (mk3 x0 x1 x2))
               (range (c2 min_coords) (wrap (c2 max_coords + 1))))
             (range (c1 min_coords) (wrap (c1 max_coords + 1))))
           (range (c0 min_coords) (wrap (c0 max_coords + 1))).

(** The vectors of all cells between two corners, both included, lie in the
    allocated array. *)
Definition cells_in_array {POINT : Type} (g : Grid POINT)
    (min_coords max_coords : vec3 size_t) : bool :=
  forallb (fun x0 =>
    forallb (fun x1 =>
      forallb (fun x2 => cell_in_array g (mk3 x0 x1 x2))
              (range (c2 min_coords) (wrap (c2 max_coords + 1))))
            (range (c1 min_coords) (wrap (c1 max_coords + 1))))
          (range (c0 min_coords) (wrap (c0 max_coords + 1))).

(** The two corners of the cube around [center], as cells. *)
Definition cube_lower {POINT : Type} (g : Grid POINT) (center : vec3 double)
    (half_len : double) : vec3 size_t :=
  grid_coords g (build3 (fun k => at3 center k - half_len)).

Definition cube_upper {POINT : Type} (g : Grid POINT) (center : vec3 double)
    (half_len : double) : vec3 size_t :=
  grid_coords g (build3 (fun k => at3 center k + half_len)).

(** The index of the vector the constructor pushes a point with coordinates
    [pnt] to (lines 260-273). *)
Definition cell_index {POINT : Type} (g : Grid POINT) (pnt : vec3 double)
    : size_t :=
  flat_index (_n_steps g)
    (build3 (cell_coord (_min_pnt g) (_inverse_step_sizes g) pnt)).

(** * binarySearch (FEM/mathlib.cpp, lines 3100-3114)

    [arr] is the array the pointer points to, with its extent: a read
    outside of it is undefined, and so is an addition or subtraction whose
    result does not fit a [long]. The [while] loop takes fuel. *)

Section BinarySearch.

(** The greatest value of [long]: 2^31 - 1 or 2^63 - 1, by platform. *)
Variable long_max : Z.

Definition in_long (z : Z) : bool :=
  (- long_max - 1 <=? z)%Z && (z <=? long_max)%Z.

Fixpoint binarySearch (fuel : nat) (arr : list Z) (target start end_ : Z)
    : outcome Z :=
  match fuel with
  | O => OutOfFuel
  | S fuel' =>
      if (start <=? end_)%Z then
        if in_long (start + end_) then
          let middle := ((start + end_) ÷ 2)%Z in
          if (0 <=? middle)%Z && (middle <? Z.of_nat (length arr))%Z then
            let a := nth (Z.to_nat middle) arr 0%Z in
            if (a =? target)%Z then Returned middle
            else if (target <? a)%Z then
              if in_long (middle - 1)
              then binarySearch fuel' arr target start (middle - 1)
              else Undefined
            else
              if in_long (middle + 1)
              then binarySearch fuel' arr target (middle + 1) end_
              else Undefined
          else Undefined
        else Undefined
      else Returned (-1)%Z
  end.

End BinarySearch.

(** [arr[start .. end]] is sorted. *)
Definition sorted_between (arr : list Z) (start end_ : Z) : Prop :=
  forall i j, (start <= i)%Z -> (i <= j)%Z -> (j <= end_)%Z ->
    (nth (Z.to_nat i) arr 0 <= nth (Z.to_nat j) arr 0)%Z.

(** [target] occurs in [arr[start .. end]]. *)
Definition occurs_between (arr : list Z) (target start end_ : Z) : Prop :=
  exists i, (start <= i <= end_)%Z /\ nth (Z.to_nat i) arr 0%Z = target.

(** * Facts *)

(** ** Numbers and ranges *)

Lemma Qltb_true (x y : Q) : Qltb x y = true <-> x < y.
Proof.
  unfold Qltb. rewrite negb_true_iff.
  split; intro H.
  - apply Qnot_le_lt. intro Hle.
    apply Qle_bool_iff in Hle. congruence.
  - destruct (Qle_bool y x) eqn:E; [|reflexivity].
    apply Qle_bool_iff in E. exfalso. apply (Qlt_not_le _ _ H E).
Qed.

Lemma Qltb_false (x y : Q) : Qltb x y = false <-> y <= x.
Proof.
  unfold Qltb. rewrite negb_false_iff. apply Qle_bool_iff.
Qed.

Lemma wrap_bounds (z : Z) : (0 <= wrap z < size_t_modulus)%Z.
Proof.
  unfold wrap. apply Z.mod_pos_bound. reflexivity.
Qed.

Lemma wrap_small (z : Z) : (0 <= z < size_t_modulus)%Z -> wrap z = z.
Proof.
  intro H. unfold wrap. apply Z.mod_small. exact H.
Qed.

Lemma In_range (s e t : Z) : In t (range s e) <-> (s <= t < e)%Z.
Proof.
  unfold range. rewrite in_map_iff. split.
  - intros [i [<- Hi]]. apply in_seq in Hi. lia.
  - intro H. exists (Z.to_nat (t - s)). split; [lia|].
    apply in_seq. lia.
Qed.

Lemma NoDup_range (s e : Z) : NoDup (range s e).
Proof.
  unfold range. apply NoDup_map_inv with (f := fun t => Z.to_nat (t - s)).
  rewrite map_map.
  rewrite (map_ext _ (fun i => i)) by (intro i; lia).
  rewrite map_id. apply seq_NoDup.
Qed.

Lemma at3_build3 (A : Type) (f : nat -> A) (j : nat) :
  (j < 3)%nat -> at3 (build3 f) j = f j.
Proof.
  intro Hj. destruct j as [|[|[|j]]]; try reflexivity. lia.
Qed.

(** ** Indices of the array *)

Lemma wrap_flat_index (a b c d : Z) :
  wrap (wrap (a + b) + c * wrap d) = wrap (a + b + c * d).
Proof.
  unfold wrap.
  rewrite Z.add_mod by (unfold size_t_modulus; lia).
  rewrite Z.mod_mod by (unfold size_t_modulus; lia).
  rewrite Z.mul_mod_idemp_r by (unfold size_t_modulus; lia).
  rewrite <- Z.add_mod by (unfold size_t_modulus; lia).
  reflexivity.
Qed.

(** The constructor and the queries compute the same index for a cell. *)
Lemma flat_index_bucket (n_steps cell : vec3 size_t) :
  wrap (c0 cell + c1 cell * c0 n_steps + c2 cell * c0 n_steps * c1 n_steps)
  = flat_index n_steps cell.
Proof.
  unfold flat_index, wrap.
  rewrite (Z.add_mod (c0 cell + c1 cell * c0 n_steps)
             (c2 cell * ((c0 n_steps * c1 n_steps) mod size_t_modulus)))
    by (unfold size_t_modulus; lia).
  rewrite Z.mul_mod_idemp_r by (unfold size_t_modulus; lia).
  rewrite <- Z.add_mod by (unfold size_t_modulus; lia).
  f_equal. ring.
Qed.

(** The index of a cell of the grid lies in the array, when the number of
    cells fits a [size_t]. *)
Lemma flat_index_in_array (n_steps ijk : vec3 size_t) :
  (0 <= c0 ijk < c0 n_steps)%Z ->
  (0 <= c1 ijk < c1 n_steps)%Z ->
  (0 <= c2 ijk < c2 n_steps)%Z ->
  (c0 n_steps * c1 n_steps * c2 n_steps < size_t_modulus)%Z ->
  (0 <= flat_index n_steps ijk
   < wrap (wrap (c0 n_steps * c1 n_steps) * c2 n_steps))%Z.
Proof.
  destruct n_steps as [a b c]. destruct ijk as [i j k]. simpl.
  intros H0 H1 H2 Hprod.
  assert (Hab : (1 <= a * b)%Z) by nia.
  assert (Hplane : (a * b <= a * b * c)%Z) by nia.
  assert (Hj : (j * a <= (b - 1) * a)%Z) by nia.
  assert (Hk : (k * (a * b) <= (c - 1) * (a * b))%Z) by nia.
  assert (Hj0 : (0 <= j * a)%Z) by nia.
  assert (Hk0 : (0 <= k * (a * b))%Z) by nia.
  unfold flat_index. simpl.
  rewrite (wrap_small (a * b)) by lia.
  rewrite (wrap_small (a * b * c)) by lia.
  rewrite wrap_small; lia.
Qed.

(** Two cells of the grid with the same index are the same cell. *)
Lemma flat_index_injective (n_steps a b : vec3 size_t) :
  (0 <= c0 a < c0 n_steps)%Z -> (0 <= c1 a < c1 n_steps)%Z ->
  (0 <= c2 a < c2 n_steps)%Z ->
  (0 <= c0 b < c0 n_steps)%Z -> (0 <= c1 b < c1 n_steps)%Z ->
  (0 <= c2 b < c2 n_steps)%Z ->
  (c0 n_steps * c1 n_steps * c2 n_steps < size_t_modulus)%Z ->
  flat_index n_steps a = flat_index n_steps b -> a = b.
Proof.
  destruct n_steps as [n0 n1 n2]. destruct a as [a0 a1 a2].
  destruct b as [b0 b1 b2]. simpl.
  intros A0 A1 A2 B0 B1 B2 Hprod.
  assert (Hab : (1 <= n0 * n1)%Z) by nia.
  assert (Hplane : (n0 * n1 <= n0 * n1 * n2)%Z) by nia.
  assert (Ha1 : (0 <= a1 * n0 <= (n1 - 1) * n0)%Z) by nia.
  assert (Hb1 : (0 <= b1 * n0 <= (n1 - 1) * n0)%Z) by nia.
  assert (Ha2 : (0 <= a2 * (n0 * n1) <= (n2 - 1) * (n0 * n1))%Z) by nia.
  assert (Hb2 : (0 <= b2 * (n0 * n1) <= (n2 - 1) * (n0 * n1))%Z) by nia.
  unfold flat_index. simpl.
  rewrite (wrap_small (n0 * n1)) by lia.
  rewrite !wrap_small by lia.
  intro E.
  assert (E2 : a2 = b2).
  { assert (Hq : ((a0 + a1 * n0) + a2 * (n0 * n1)
                  = (b0 + b1 * n0) + b2 * (n0 * n1))%Z) by lia.
    assert (Ra : (0 <= a0 + a1 * n0 < n0 * n1)%Z) by nia.
    assert (Rb : (0 <= b0 + b1 * n0 < n0 * n1)%Z) by nia.
    nia. }
  subst b2.
  assert (E1 : a1 = b1) by nia.
  subst b1.
  assert (E0 : a0 = b0) by lia.
  subst b0. reflexivity.
Qed.

(** ** Rules for computations *)

Section Rules.

Variable POINT : Type.

Lemma returns_ret (A : Type) (a : A) (g : Grid POINT) : returns (ret a) g a.
Proof. reflexivity. Qed.

Lemma returns_member (A : Type) (field : Grid POINT -> A) (g : Grid POINT) :
  returns (member field) g (field g).
Proof. reflexivity. Qed.

Lemma returns_bind (A B : Type) (m : M POINT A) (f : A -> M POINT B)
    (g : Grid POINT) (a : A) (b : B) :
  returns m g a -> returns (f a) g b -> returns (bind m f) g b.
Proof.
  unfold returns, bind. intros -> Hf. exact Hf.
Qed.

Lemma returns_fun (A : Type) (m : M POINT A) (g : Grid POINT) (a b : A) :
  returns m g a -> returns m g b -> a = b.
Proof.
  unfold returns. intros Ha Hb. congruence.
Qed.

(** A loop whose body does nothing on the listed values does nothing. *)
Lemma for_each_skip (S : Type) (ts : list Z) (body : Z -> S -> M POINT S)
    (g : Grid POINT) (st : S) :
  (forall t, In t ts -> returns (body t st) g st) ->
  returns (for_each ts body st) g st.
Proof.
  induction ts as [|t ts IH]; intro Hbody; simpl.
  - reflexivity.
  - apply returns_bind with (a := st).
    + apply Hbody. left. reflexivity.
    + apply IH. intros t' Hin. apply Hbody. right. exact Hin.
Qed.

(** A loop whose body either does nothing or ends in an undefined read does
    nothing or ends in an undefined read. *)
Lemma for_each_skip_or_undefined (S : Type) (ts : list Z)
    (body : Z -> S -> M POINT S) (g : Grid POINT) (st : S) :
  (forall t, In t ts ->
     body t st g = (Returned st, g) \/ body t st g = (Undefined, g)) ->
  for_each ts body st g = (Returned st, g) \/
  for_each ts body st g = (Undefined, g).
Proof.
  induction ts as [|t ts IH]; intro Hbody; simpl.
  - left. reflexivity.
  - unfold bind.
    destruct (Hbody t (or_introl eq_refl)) as [-> | ->]; [|right; reflexivity].
    apply IH. intros t' Hin. apply Hbody. right. exact Hin.
Qed.

(** A loop whose body appends [f t] to a vector, or ends in an undefined
    read where [ok t] fails, appends them in turn, up to the first undefined
    read. *)
Lemma for_each_appends (ts : list Z)
    (body : Z -> list POINT -> M POINT (list POINT))
    (f : Z -> list POINT) (ok : Z -> bool) (g : Grid POINT) :
  (forall t v, In t ts ->
     body t v g = if ok t then (Returned (v ++ f t), g) else (Undefined, g)) ->
  forall v,
    for_each ts body v g
    = if forallb ok ts then (Returned (v ++ flat_map f ts), g)
      else (Undefined, g).
Proof.
  induction ts as [|t ts IH]; intros Hbody v; simpl.
  - rewrite app_nil_r. reflexivity.
  - unfold bind. rewrite (Hbody t v (or_introl eq_refl)).
    destruct (ok t); simpl; [|reflexivity].
    rewrite IH by (intros t' v' Hin; apply Hbody; right; exact Hin).
    rewrite app_assoc. reflexivity.
Qed.

Lemma fold_left_push_back (b v : list POINT) :
  fold_left push_back b v = v ++ b.
Proof.
  revert v. induction b as [|p b IH]; intro v; simpl.
  - symmetry. apply app_nil_r.
  - rewrite IH. unfold push_back. rewrite <- app_assoc. reflexivity.
Qed.

(** *** Computations that leave the object *)

Lemma leaves_ret (A : Type) (a : A) : leaves_object (@ret POINT A a).
Proof. intro g. reflexivity. Qed.

Lemma leaves_member (A : Type) (field : Grid POINT -> A) :
  leaves_object (member field).
Proof. intro g. reflexivity. Qed.

Lemma leaves_bucket_at (idx : size_t) : leaves_object (@bucket_at POINT idx).
Proof. intro g. unfold bucket_at. destruct (_ && _); reflexivity. Qed.

Lemma leaves_out_of_fuel (A : Type) : leaves_object (@out_of_fuel POINT A).
Proof. intro g. reflexivity. Qed.

Lemma leaves_bind (A B : Type) (m : M POINT A) (f : A -> M POINT B) :
  leaves_object m -> (forall a, leaves_object (f a)) ->
  leaves_object (bind m f).
Proof.
  intros Hm Hf g. unfold bind. specialize (Hm g).
  destruct (m g) as [[a| |] g']; simpl in Hm; subst g'; [|reflexivity ..].
  apply Hf.
Qed.

Lemma leaves_for_each (S : Type) (ts : list Z) (body : Z -> S -> M POINT S) :
  (forall t st, leaves_object (body t st)) ->
  forall st, leaves_object (for_each ts body st).
Proof.
  intro Hbody. induction ts as [|t ts IH]; intro st; simpl.
  - apply leaves_ret.
  - apply leaves_bind; [apply Hbody|exact IH].
Qed.

(** An assignment that changes a member does not leave the object. *)
Lemma assign_changes (f : Grid POINT -> Grid POINT) (g : Grid POINT) :
  f g <> g -> ~ leaves_object (assign f).
Proof.
  intros Hf Hl. apply Hf. exact (Hl g).
Qed.

(** ** The helper methods return, and leave the object *)

Lemma getGridCoords_returns (pnt : vec3 double) (g : Grid POINT) :
  returns (getGridCoords pnt) g (grid_coords g pnt).
Proof. reflexivity. Qed.

Lemma getPointCellBorderDistances_returns (pnt : vec3 double)
    (coords : vec3 size_t) (g : Grid POINT) :
  exists d, returns (getPointCellBorderDistances pnt coords) g d.
Proof.
  unfold returns, getPointCellBorderDistances, bind, member, ret.
  eexists. reflexivity.
Qed.

Lemma cell_in_array_inside (g : Grid POINT) (coords : vec3 size_t) :
  (0 <= c0 coords < c0 (_n_steps g))%Z ->
  (0 <= c1 coords < c1 (_n_steps g))%Z ->
  (0 <= c2 coords < c2 (_n_steps g))%Z ->
  (c0 (_n_steps g) * c1 (_n_steps g) * c2 (_n_steps g) < size_t_modulus)%Z ->
  cell_in_array g coords = true.
Proof.
  intros H0 H1 H2 Hfit. unfold cell_in_array, n_buckets.
  rewrite flat_index_bucket. apply Z.ltb_lt.
  apply flat_index_in_array; assumption.
Qed.

(** The read of the vector of a cell. *)
Lemma bucket_at_cell (g : Grid POINT) (coords : vec3 size_t) :
  bucket_at (wrap (c0 coords + c1 coords * c0 (_n_steps g)
                   + c2 coords * c0 (_n_steps g) * c1 (_n_steps g))) g
  = if cell_in_array g coords then (Returned (bucket g coords), g)
    else (Undefined, g).
Proof.
  unfold bucket_at, cell_in_array, bucket.
  assert (E : forall z, (0 <=? wrap z)%Z = true).
  { intro z. apply Z.leb_le. apply wrap_bounds. }
  rewrite E. reflexivity.
Qed.

(** The cube query appends the contents of the cells between the two
    resolved corners to the vector it was given, when the vectors of all
    these cells lie in the array; it ends in an undefined read otherwise. *)
Lemma getPointsWithinCube_value (pnt : vec3 double) (half_len : double)
    (pnts : list POINT) (g : Grid POINT) :
  getPointsWithinCube POINT pnt half_len pnts g
  = if cells_in_array g (cube_lower g pnt half_len) (cube_upper g pnt half_len)
    then (Returned
            (pnts ++ cube_contents g (cube_lower g pnt half_len)
                                     (cube_upper g pnt half_len)), g)
    else (Undefined, g).
Proof.
  unfold getPointsWithinCube, bind.
  rewrite !(getGridCoords_returns _ g).
  unfold member at 1.
  fold (cube_lower g pnt half_len). fold (cube_upper g pnt half_len).
  unfold for_range, cube_contents, cells_in_array.
  apply for_each_appends. intros x0 v0 _.
  apply for_each_appends. intros x1 v1 _.
  apply for_each_appends. intros x2 v2 _.
  unfold bind.
  rewrite wrap_flat_index.
  replace (x0 + x1 * c0 (_n_steps g)
           + x2 * (c0 (_n_steps g) * c1 (_n_steps g)))%Z
    with (c0 (@mk3 size_t x0 x1 x2)
          + c1 (@mk3 size_t x0 x1 x2) * c0 (_n_steps g)
          + c2 (@mk3 size_t x0 x1 x2) * c0 (_n_steps g) * c1 (_n_steps g))%Z
    by (simpl; ring).
  rewrite bucket_at_cell.
  destruct (cell_in_array g (@mk3 size_t x0 x1 x2)); [|reflexivity].
  unfold ret. rewrite fold_left_push_back. reflexivity.
Qed.

Lemma leaves_getPointsWithinCube (pnt : vec3 double) (half_len : double)
    (pnts : list POINT) :
  leaves_object (getPointsWithinCube POINT pnt half_len pnts).
Proof.
  unfold getPointsWithinCube.
  apply leaves_bind; [intro g; reflexivity|]. intro lo.
  apply leaves_bind; [intro g; reflexivity|]. intro hi.
  apply leaves_bind; [apply leaves_member|]. intro n_steps.
  unfold for_range.
  apply leaves_for_each. intros x0 v0.
  apply leaves_for_each. intros x1 v1.
  apply leaves_for_each. intros x2 v2.
  apply leaves_bind; [apply leaves_bucket_at|]. intro b.
  apply leaves_ret.
Qed.

End Rules.

(** ** The queries *)

Section Queries.

Variable POINT : Type.
Variable getData : POINT -> vec3 double.
Variable sqrDist : vec3 double -> vec3 double -> double.

(** The scan of the vector of a cell: undefined when the vector lies
    outside of the array. *)
Lemma calcNearestPointInGridCell_value (pnt : vec3 double)
    (coords : vec3 size_t) (g : Grid POINT) :
  calcNearestPointInGridCell POINT getData sqrDist pnt coords g
  = if cell_in_array g coords
    then (Returned (scan_bucket POINT getData sqrDist pnt (bucket g coords)), g)
    else (Undefined, g).
Proof.
  unfold calcNearestPointInGridCell, bind, member. cbv beta iota.
  rewrite bucket_at_cell.
  destruct (cell_in_array g coords); reflexivity.
Qed.

(** One cell of a pass of the ring search. *)
Lemma ring_cell_value (pnt : vec3 double) (coords tmp : vec3 size_t)
    (st : double * option POINT) (g : Grid POINT) :
  ring_cell POINT getData sqrDist pnt coords tmp st g
  = if negb ((c0 tmp =? c0 coords)%Z && (c1 tmp =? c1 coords)%Z
             && (c2 tmp =? c2 coords)%Z)
       && ((c0 tmp <? c0 (_n_steps g))%Z && (c1 tmp <? c1 (_n_steps g))%Z
           && (c2 tmp <? c2 (_n_steps g))%Z)
    then
      if cell_in_array g tmp
      then match scan_bucket POINT getData sqrDist pnt (bucket g tmp) with
           | Some (d, p) =>
               if Qltb d (fst st) then (Returned (d, Some p), g)
               else (Returned st, g)
           | None => (Returned st, g)
           end
      else (Undefined, g)
    else (Returned st, g).
Proof.
  unfold ring_cell.
  destruct (negb _); [|reflexivity].
  unfold bind, member. cbv beta iota.
  destruct (_ && _); [|reflexivity]. simpl andb.
  rewrite calcNearestPointInGridCell_value.
  destruct (cell_in_array g tmp); [|reflexivity].
  destruct (scan_bucket _ _ _ _ _) as [[d p]|]; [|reflexivity].
  destruct (Qltb d (fst st)); reflexivity.
Qed.

(** *** The queries leave the object *)

Lemma leaves_calcNearestPointInGridCell (pnt : vec3 double)
    (coords : vec3 size_t) :
  leaves_object (calcNearestPointInGridCell POINT getData sqrDist pnt coords).
Proof.
  unfold calcNearestPointInGridCell.
  apply leaves_bind; [apply leaves_member|]. intro n_steps.
  apply leaves_bind; [apply leaves_bucket_at|]. intro pnts.
  apply leaves_ret.
Qed.

Lemma leaves_ring_cell (pnt : vec3 double) (coords tmp : vec3 size_t)
    (st : double * option POINT) :
  leaves_object (ring_cell POINT getData sqrDist pnt coords tmp st).
Proof.
  unfold ring_cell.
  destruct (negb _); [|apply leaves_ret].
  apply leaves_bind; [apply leaves_member|]. intro n_steps.
  destruct (_ && _); [|apply leaves_ret].
  apply leaves_bind; [apply leaves_calcNearestPointInGridCell|].
  intros [[d p]|]; [|apply leaves_ret].
  destruct (Qltb d (fst st)); apply leaves_ret.
Qed.

Lemma leaves_ring_pass (pnt : vec3 double) (coords : vec3 size_t)
    (offset : size_t) (st : double * option POINT) :
  leaves_object (ring_pass POINT getData sqrDist pnt coords offset st).
Proof.
  unfold ring_pass, for_range.
  apply leaves_for_each. intros t0 st0.
  apply leaves_for_each. intros t1 st1.
  apply leaves_for_each. intros t2 st2.
  apply leaves_ring_cell.
Qed.

Lemma leaves_ring_search (fuel : nat) (pnt : vec3 double)
    (coords : vec3 size_t) (offset : size_t) (d : double) :
  leaves_object (ring_search POINT getData sqrDist fuel pnt coords offset d).
Proof.
  revert offset d. induction fuel as [|fuel IH]; intros offset d; simpl.
  - apply leaves_out_of_fuel.
  - apply leaves_bind; [apply leaves_ring_pass|]. intro st.
    destruct (snd st); [apply leaves_ret|apply IH].
Qed.

(** *** The ring search and its fuel *)

(** A search that ends within its fuel ends in the same way with more. *)
Lemma ring_search_more_fuel (fuel fuel' : nat) (pnt : vec3 double)
    (coords : vec3 size_t) (offset : size_t) (d : double) (g : Grid POINT) :
  (fuel <= fuel')%nat ->
  fst (ring_search POINT getData sqrDist fuel pnt coords offset d g)
    <> OutOfFuel ->
  ring_search POINT getData sqrDist fuel' pnt coords offset d g
  = ring_search POINT getData sqrDist fuel pnt coords offset d g.
Proof.
  revert fuel' offset d g.
  induction fuel as [|fuel IH]; intros fuel' offset d g Hle Hend.
  - exfalso. apply Hend. reflexivity.
  - destruct fuel' as [|fuel']; [lia|].
    simpl in *. unfold bind in *.
    destruct (ring_pass POINT getData sqrDist pnt coords offset (d, None) g)
      as [[st| |] g1]; try reflexivity.
    destruct (snd st); [reflexivity|].
    apply IH; [lia|exact Hend].
Qed.

(** *** The ring search when an axis has a single cell

    With [coords[k] = 0] the loop over axis [k] starts at [0 - offset] in
    [size_t] arithmetic, a value of at least 1 for every [offset] but 0, and
    for [offset = 0] it is empty: no cell with coordinate 0 on that axis is
    examined, whatever the offset. *)

Lemma ring_axis_from_zero (offset t : Z) :
  (0 <= offset < size_t_modulus)%Z ->
  In t (range (wrap (0 - offset)) (wrap (0 + offset))) -> (1 <= t)%Z.
Proof.
  intros Hoff Hin. apply In_range in Hin.
  destruct (Z.eq_dec offset 0) as [->|Hnz].
  - simpl in Hin. unfold wrap in Hin. simpl in Hin. lia.
  - assert (Hw : wrap (0 - offset) = (size_t_modulus - offset)%Z).
    { unfold wrap. symmetry.
      apply (Z.mod_unique_pos _ _ (-1) (size_t_modulus - offset)); lia. }
    rewrite Hw in Hin. lia.
Qed.

Lemma ring_cell_outside (pnt : vec3 double) (coords tmp : vec3 size_t)
    (st : double * option POINT) (g : Grid POINT) :
  (c0 (_n_steps g) <= c0 tmp \/ c1 (_n_steps g) <= c1 tmp
   \/ c2 (_n_steps g) <= c2 tmp)%Z ->
  returns (ring_cell POINT getData sqrDist pnt coords tmp st) g st.
Proof.
  intro Hout. unfold returns. rewrite ring_cell_value.
  assert (E : ((c0 tmp <? c0 (_n_steps g))%Z && (c1 tmp <? c1 (_n_steps g))%Z
               && (c2 tmp <? c2 (_n_steps g))%Z) = false).
  { rewrite !andb_false_iff, !Z.ltb_ge. tauto. }
  rewrite E, andb_false_r. reflexivity.
Qed.

Lemma ring_pass_single_cell_axis (pnt : vec3 double) (coords : vec3 size_t)
    (offset : size_t) (st : double * option POINT) (g : Grid POINT)
    (k : nat) :
  (k < 3)%nat ->
  at3 coords k = 0%Z ->
  (at3 (_n_steps g) k <= 1)%Z ->
  (0 <= offset < size_t_modulus)%Z ->
  returns (ring_pass POINT getData sqrDist pnt coords offset st) g st.
Proof.
  intros Hk Hc Hn Hoff. unfold ring_pass, for_range.
  apply for_each_skip. intros t0 H0.
  apply for_each_skip. intros t1 H1.
  apply for_each_skip. intros t2 H2.
  apply ring_cell_outside. simpl c0. simpl c1. simpl c2.
  destruct k as [|[|[|k]]]; simpl in Hc, Hn; [| | |lia].
  - rewrite Hc in H0. apply (ring_axis_from_zero _ _ Hoff) in H0. lia.
  - rewrite Hc in H1. apply (ring_axis_from_zero _ _ Hoff) in H1. lia.
  - rewrite Hc in H2. apply (ring_axis_from_zero _ _ Hoff) in H2. lia.
Qed.

Lemma ring_search_single_cell_axis (fuel : nat) (pnt : vec3 double)
    (coords : vec3 size_t) (offset : size_t) (d : double) (g : Grid POINT)
    (k : nat) :
  (k < 3)%nat ->
  at3 coords k = 0%Z ->
  (at3 (_n_steps g) k <= 1)%Z ->
  (0 <= offset < size_t_modulus)%Z ->
  ring_search POINT getData sqrDist fuel pnt coords offset d g
  = (OutOfFuel, g).
Proof.
  intros Hk Hc Hn. revert offset.
  induction fuel as [|fuel IH]; intros offset Hoff; simpl.
  - reflexivity.
  - unfold bind.
    rewrite (ring_pass_single_cell_axis pnt coords offset (d, None) g k
               Hk Hc Hn Hoff).
    simpl. apply IH. apply wrap_bounds.
Qed.

(** *** The ring search when the query is far from all points

    A candidate of the ring search is taken when its squared distance is
    below [sqr_min_dist], which starts as the squared diagonal of the box. *)

Lemma fold_nearer_invariant (pnt : vec3 double) (pts : list POINT)
    (best : double * POINT) (universe : POINT -> Prop) :
  fst best = sqrDist (getData (snd best)) pnt ->
  universe (snd best) ->
  (forall p, In p pts -> universe p) ->
  let r := fold_left (nearer POINT getData sqrDist pnt) pts best in
  fst r = sqrDist (getData (snd r)) pnt /\ universe (snd r).
Proof.
  revert best. induction pts as [|p pts IH]; intros best Hd Hu Hall; simpl.
  - split; assumption.
  - apply IH.
    + unfold nearer. destruct (Qltb _ _); [reflexivity|exact Hd].
    + unfold nearer. destruct (Qltb _ _); simpl; [|exact Hu].
      apply Hall. left. reflexivity.
    + intros q Hq. apply Hall. right. exact Hq.
Qed.

Lemma scan_bucket_some (pnt : vec3 double) (pts : list POINT) (d : double)
    (p : POINT) :
  scan_bucket POINT getData sqrDist pnt pts = Some (d, p) ->
  d = sqrDist (getData p) pnt /\ In p pts.
Proof.
  destruct pts as [|p0 rest]; simpl; [discriminate|].
  intro H. injection H as H.
  pose proof (fold_nearer_invariant pnt rest (sqrDist (getData p0) pnt, p0)
                (fun q => In q (p0 :: rest)) eq_refl
                (or_introl eq_refl) (fun q Hq => or_intror Hq)) as Hinv.
  simpl in Hinv. rewrite H in Hinv. exact Hinv.
Qed.

(** A cell examined with no candidate at hand, all points being at least
    [d] away: no candidate is taken. *)
Lemma ring_cell_far (pnt : vec3 double) (coords tmp : vec3 size_t)
    (d : double) (g : Grid POINT) :
  (forall cell p, In p (bucket g cell) -> d <= sqrDist (getData p) pnt) ->
  ring_cell POINT getData sqrDist pnt coords tmp (d, None) g
  = if negb ((c0 tmp =? c0 coords)%Z && (c1 tmp =? c1 coords)%Z
             && (c2 tmp =? c2 coords)%Z)
       && ((c0 tmp <? c0 (_n_steps g))%Z && (c1 tmp <? c1 (_n_steps g))%Z
           && (c2 tmp <? c2 (_n_steps g))%Z)
       && negb (cell_in_array g tmp)
    then (Undefined, g) else (Returned (d, None), g).
Proof.
  intro Hfar. rewrite ring_cell_value.
  destruct (negb _ && _); [|reflexivity]. simpl andb.
  destruct (cell_in_array g tmp); [|reflexivity]. simpl negb.
  destruct (scan_bucket _ _ _ _ _) as [[d' p]|] eqn:E; [|reflexivity].
  apply scan_bucket_some in E. destruct E as [-> Hin].
  assert (F : Qltb (sqrDist (getData p) pnt) (fst (d, @None POINT)) = false).
  { apply Qltb_false. apply (Hfar tmp p Hin). }
  rewrite F. reflexivity.
Qed.

Lemma ring_pass_far (pnt : vec3 double) (coords : vec3 size_t)
    (offset : size_t) (d : double) (g : Grid POINT) :
  (forall cell p, In p (bucket g cell) -> d <= sqrDist (getData p) pnt) ->
  (ring_pass POINT getData sqrDist pnt coords offset (d, None) g
   = (Returned (d, None), g) \/
   ring_pass POINT getData sqrDist pnt coords offset (d, None) g
   = (Undefined, g)) /\
  ((c0 (_n_steps g) * c1 (_n_steps g) * c2 (_n_steps g)
    < size_t_modulus)%Z ->
   ring_pass POINT getData sqrDist pnt coords offset (d, None) g
   = (Returned (d, None), g)).
Proof.
  intro Hfar. split.
  - unfold ring_pass, for_range.
    apply for_each_skip_or_undefined. intros t0 _.
    apply for_each_skip_or_undefined. intros t1 _.
    apply for_each_skip_or_undefined. intros t2 _.
    rewrite (ring_cell_far _ _ _ _ _ Hfar).
    destruct (_ && _); [right|left]; reflexivity.
  - intro Hfit. unfold ring_pass, for_range.
    apply for_each_skip. intros t0 H0.
    apply for_each_skip. intros t1 H1.
    apply for_each_skip. intros t2 H2.
    unfold returns. rewrite (ring_cell_far _ _ _ _ _ Hfar).
    apply In_range in H0, H1, H2.
    pose proof (wrap_bounds (c0 coords - offset)).
    pose proof (wrap_bounds (c1 coords - offset)).
    pose proof (wrap_bounds (c2 coords - offset)).
    match goal with
    | |- context [cell_in_array g ?c] => destruct (cell_in_array g c) eqn:Ein
    end.
    + simpl negb. rewrite andb_false_r. reflexivity.
    + simpl negb. rewrite andb_true_r.
      match goal with
      | |- context [negb ?a && ?b] => destruct b eqn:E
      end; [|rewrite andb_false_r; reflexivity].
      exfalso.
      apply andb_true_iff in E. destruct E as [E E2].
      apply andb_true_iff in E. destruct E as [E0 E1].
      apply Z.ltb_lt in E0, E1, E2. simpl in E0, E1, E2.
      rewrite cell_in_array_inside in Ein;
        [discriminate Ein|simpl; lia ..].
Qed.

Lemma ring_search_far (fuel : nat) (pnt : vec3 double)
    (coords : vec3 size_t) (offset : size_t) (d : double) (g : Grid POINT) :
  (forall cell p, In p (bucket g cell) -> d <= sqrDist (getData p) pnt) ->
  (ring_search POINT getData sqrDist fuel pnt coords offset d g
   = (OutOfFuel, g) \/
   ring_search POINT getData sqrDist fuel pnt coords offset d g
   = (Undefined, g)) /\
  ((c0 (_n_steps g) * c1 (_n_steps g) * c2 (_n_steps g)
    < size_t_modulus)%Z ->
   ring_search POINT getData sqrDist fuel pnt coords offset d g
   = (OutOfFuel, g)).
Proof.
  intro Hfar. revert offset.
  induction fuel as [|fuel IH]; intro offset; simpl.
  - split; [left|intros _]; reflexivity.
  - unfold bind.
    destruct (ring_pass_far pnt coords offset d g Hfar) as [Hpass Hfit].
    split.
    + destruct Hpass as [-> | ->]; [|right; reflexivity].
      simpl. apply IH.
    + intro Hprod. rewrite (Hfit Hprod). simpl. apply IH. exact Hprod.
Qed.

(** *** The candidate of the ring search is a point of a bucket *)

Lemma for_each_inv (S : Type) (P : S -> Prop) (ts : list Z)
    (body : Z -> S -> M POINT S) (g : Grid POINT) :
  (forall t st, leaves_object (body t st)) ->
  (forall t st st', body t st g = (Returned st', g) -> P st -> P st') ->
  forall st st' g',
    for_each ts body st g = (Returned st', g') -> P st -> P st'.
Proof.
  intros Hl Hbody. induction ts as [|t ts IH]; intros st st' g'; simpl.
  - unfold ret. intros H HP. injection H as <- _. exact HP.
  - unfold bind. pose proof (Hl t st g) as Hg.
    destruct (body t st g) as [[s1| |] g1] eqn:E; try discriminate.
    simpl in Hg. subst g1. intros H HP.
    apply (IH s1 st' g' H). apply (Hbody t st s1 E HP).
Qed.

Lemma ring_cell_candidate (pnt : vec3 double) (coords tmp : vec3 size_t)
    (st st' : double * option POINT) (g : Grid POINT) :
  ring_cell POINT getData sqrDist pnt coords tmp st g = (Returned st', g) ->
  candidate_ok getData sqrDist g pnt st ->
  candidate_ok getData sqrDist g pnt st'.
Proof.
  rewrite ring_cell_value.
  destruct (negb _ && _); [|intros H; injection H as <-; tauto].
  destruct (cell_in_array g tmp); [|discriminate].
  destruct (scan_bucket _ _ _ _ _) as [[d p]|] eqn:E;
    [|intros H; injection H as <-; tauto].
  destruct (Qltb d (fst st)); [|intros H; injection H as <-; tauto].
  intros H _. injection H as <-.
  apply scan_bucket_some in E. destruct E as [Hd Hin].
  unfold candidate_ok. simpl. split; [exact Hd|]. exists tmp. exact Hin.
Qed.

Lemma ring_pass_candidate (pnt : vec3 double) (coords : vec3 size_t)
    (offset : size_t) (st st' : double * option POINT) (g g' : Grid POINT) :
  ring_pass POINT getData sqrDist pnt coords offset st g = (Returned st', g')
  ->
  candidate_ok getData sqrDist g pnt st ->
  candidate_ok getData sqrDist g pnt st'.
Proof.
  unfold ring_pass, for_range.
  apply for_each_inv.
  { intros t0 s0. apply leaves_for_each. intros t1 s1.
    apply leaves_for_each. intros t2 s2. apply leaves_ring_cell. }
  intros t0 s0 s0'. apply for_each_inv.
  { intros t1 s1. apply leaves_for_each. intros t2 s2.
    apply leaves_ring_cell. }
  intros t1 s1 s1'. apply for_each_inv.
  { intros t2 s2. apply leaves_ring_cell. }
  intros t2 s2 s2'. apply ring_cell_candidate.
Qed.

Lemma ring_search_candidate (fuel : nat) (pnt : vec3 double)
    (coords : vec3 size_t) (offset : size_t) (d d' : double) (p : POINT)
    (g g' : Grid POINT) :
  ring_search POINT getData sqrDist fuel pnt coords offset d g
  = (Returned (d', p), g') ->
  d' = sqrDist (getData p) pnt /\ exists cell, In p (bucket g cell).
Proof.
  revert offset d. induction fuel as [|fuel IH]; intros offset d; simpl.
  - discriminate.
  - unfold bind.
    pose proof (leaves_ring_pass pnt coords offset (d, None) g) as Hg.
    destruct (ring_pass POINT getData sqrDist pnt coords offset (d, None) g)
      as [[st| |] g1] eqn:E; try discriminate.
    simpl in Hg. subst g1.
    pose proof (ring_pass_candidate _ _ _ _ _ _ _ E I) as Hinv.
    unfold candidate_ok in Hinv.
    destruct st as [x [q|]]; simpl in *.
    + unfold ret. intro H. injection H as <- <- _. exact Hinv.
    + apply IH.
Qed.

Lemma fold_nearer_of_universe (pnt : vec3 double) (pts : list POINT)
    (best : double * POINT) (universe : POINT -> Prop) :
  universe (snd best) ->
  (forall q, In q pts -> universe q) ->
  universe (snd (fold_left (nearer_of POINT getData sqrDist pnt) pts best)).
Proof.
  revert best. induction pts as [|p pts IH]; intros best Hu Hall; simpl.
  - exact Hu.
  - apply IH.
    + unfold nearer_of. destruct (Qltb _ _); simpl; [|exact Hu].
      apply Hall. left. reflexivity.
    + intros q Hq. apply Hall. right. exact Hq.
Qed.

Lemma cube_contents_In (h : Grid POINT) (lo hi : vec3 size_t) (q : POINT) :
  In q (cube_contents h lo hi) -> exists cell, In q (bucket h cell).
Proof.
  unfold cube_contents. intro Hin.
  apply in_flat_map in Hin. destruct Hin as [x0 [_ Hin]].
  apply in_flat_map in Hin. destruct Hin as [x1 [_ Hin]].
  apply in_flat_map in Hin. destruct Hin as [x2 [_ Hin]].
  exists (mk3 x0 x1 x2). exact Hin.
Qed.

(** C10. The cube query appends to the vector of the caller. For every
    grid, query and vector given, with [min_coords] and [max_coords] the
    cells [getGridCoords] resolves the two corners of the cube to: the call
    either ends in a read outside of the array, which happens exactly when
    the vector of some cell between [min_coords] and [max_coords] lies
    outside of it, or it returns: then the vector is the one given, elements
    and order unchanged, followed by the contents of the cells between the
    two, and the grid is as it was. *)
Theorem getPointsWithinCube_appends (pnt : vec3 double) (half_len : double)
    (pnts : list POINT) (g : Grid POINT)
    (min_coords max_coords : vec3 size_t) :
  returns (getGridCoords (build3 (fun k => at3 pnt k - half_len))) g
          min_coords ->
  returns (getGridCoords (build3 (fun k => at3 pnt k + half_len))) g
          max_coords ->
  getPointsWithinCube POINT pnt half_len pnts g
  = if cells_in_array g min_coords max_coords
    then (Returned (pnts ++ cube_contents g min_coords max_coords), g)
    else (Undefined, g).
Proof.
  intros Hmin Hmax.
  rewrite (returns_fun _ _ _ _ _ _ Hmin (getGridCoords_returns _ _ g)).
  rewrite (returns_fun _ _ _ _ _ _ Hmax (getGridCoords_returns _ _ g)).
  apply getPointsWithinCube_value.
Qed.

(** *** The nearest-point query *)

Section Nearest.

Variable sqrt : double -> double.

Lemma leaves_nearest_in_cube (pnt : vec3 double) (d : double) (p : POINT) :
  leaves_object (nearest_in_cube POINT getData sqrDist sqrt pnt d p).
Proof.
  unfold nearest_in_cube.
  apply leaves_bind; [apply leaves_getPointsWithinCube|]. intro pnts.
  apply leaves_ret.
Qed.

Lemma leaves_getNearestPoint (fuel : nat) (pnt : vec3 double) :
  leaves_object (getNearestPoint POINT getData sqrDist sqrt fuel pnt).
Proof.
  unfold getNearestPoint.
  apply leaves_bind; [intro g; reflexivity|]. intro coords.
  apply leaves_bind; [apply leaves_member|]. intro min_pnt.
  apply leaves_bind; [apply leaves_member|]. intro max_pnt.
  apply leaves_bind; [intro g; reflexivity|]. intro dists.
  apply leaves_bind; [apply leaves_calcNearestPointInGridCell|].
  intros [[d p]|].
  - destruct (_ && _); [apply leaves_ret|apply leaves_nearest_in_cube].
  - apply leaves_bind; [apply leaves_ring_search|]. intro found.
    apply leaves_nearest_in_cube.
Qed.

(** The query up to the scan of its own cell. *)
Lemma getNearestPoint_value (fuel : nat) (pnt : vec3 double)
    (g : Grid POINT) :
  exists dists,
    returns (getPointCellBorderDistances pnt (grid_coords g pnt)) g dists /\
    getNearestPoint POINT getData sqrDist sqrt fuel pnt g
    = if cell_in_array g (grid_coords g pnt)
      then
        match scan_bucket POINT getData sqrDist pnt
                (bucket g (grid_coords g pnt)) with
        | Some (sqr_min_dist, nearest_pnt) =>
            let min_dist := sqrt sqr_min_dist in
            if Qgeb (dist_bottom dists) min_dist
               && Qgeb (dist_front dists) min_dist
               && Qgeb (dist_right dists) min_dist
               && Qgeb (dist_back dists) min_dist
               && Qgeb (dist_left dists) min_dist
               && Qgeb (dist_top dists) min_dist
            then (Returned (Some nearest_pnt), g)
            else nearest_in_cube POINT getData sqrDist sqrt pnt sqr_min_dist
                   nearest_pnt g
        | None =>
            bind (ring_search POINT getData sqrDist fuel pnt
                    (grid_coords g pnt) 1%Z
                    (sqrDist (_min_pnt g) (_max_pnt g)))
              (fun found =>
                 nearest_in_cube POINT getData sqrDist sqrt pnt (fst found)
                   (snd found)) g
        end
      else (Undefined, g).
Proof.
  destruct (getPointCellBorderDistances_returns POINT pnt (grid_coords g pnt) g)
    as [dists Hd].
  exists dists. split; [exact Hd|].
  unfold getNearestPoint.
  unfold bind at 1. rewrite (getGridCoords_returns POINT pnt g).
  unfold bind at 1. unfold member at 1. cbv beta iota.
  unfold bind at 1. unfold member at 1. cbv beta iota.
  unfold bind at 1. rewrite Hd.
  unfold bind at 1. rewrite calcNearestPointInGridCell_value.
  destruct (cell_in_array g (grid_coords g pnt)); [|reflexivity].
  destruct (scan_bucket _ _ _ _ _) as [[d p]|]; [|reflexivity].
  cbv zeta. destruct (_ && _); reflexivity.
Qed.

(** A query that ends within its fuel ends in the same way with more. *)
Lemma getNearestPoint_more_fuel (fuel fuel' : nat) (pnt : vec3 double)
    (g : Grid POINT) :
  (fuel <= fuel')%nat ->
  fst (getNearestPoint POINT getData sqrDist sqrt fuel pnt g) <> OutOfFuel ->
  getNearestPoint POINT getData sqrDist sqrt fuel' pnt g
  = getNearestPoint POINT getData sqrDist sqrt fuel pnt g.
Proof.
  intros Hle.
  destruct (getNearestPoint_value fuel pnt g) as [d1 [H1 ->]].
  destruct (getNearestPoint_value fuel' pnt g) as [d2 [H2 ->]].
  rewrite (returns_fun _ _ _ _ _ _ H2 H1).
  destruct (cell_in_array g (grid_coords g pnt)); [|reflexivity].
  destruct (scan_bucket _ _ _ _ _) as [[d p]|]; [reflexivity|].
  unfold bind. intro Hend.
  rewrite (ring_search_more_fuel fuel fuel'); [reflexivity|exact Hle|].
  intro E. apply Hend.
  destruct (ring_search POINT getData sqrDist fuel pnt (grid_coords g pnt) 1%Z
              (sqrDist (_min_pnt g) (_max_pnt g)) g) as [[x| |] g1];
    simpl in E; try discriminate. reflexivity.
Qed.

(** A query whose own cell is empty runs the ring search. *)
Lemma getNearestPoint_empty_cell (fuel : nat) (pnt : vec3 double)
    (g : Grid POINT) :
  bucket g (grid_coords g pnt) = [] ->
  getNearestPoint POINT getData sqrDist sqrt fuel pnt g
  = if cell_in_array g (grid_coords g pnt)
    then bind (ring_search POINT getData sqrDist fuel pnt
                 (grid_coords g pnt) 1%Z
                 (sqrDist (_min_pnt g) (_max_pnt g)))
           (fun found =>
              nearest_in_cube POINT getData sqrDist sqrt pnt (fst found)
                (snd found)) g
    else (Undefined, g).
Proof.
  intro Hempty.
  destruct (getNearestPoint_value fuel pnt g) as [d1 [H1 ->]].
  rewrite Hempty. reflexivity.
Qed.

(** C9. A query leaves all members of the grid as they were, however it
    ends and at whatever moment of a run that does not end: the object handed
    on by [getNearestPoint], for every fuel, and by [getPointsWithinCube] is
    the object received. A query invoked again on the grid the first
    invocation left ends as the first did: [getNearestPoint], once it has
    ended within some fuel, gives the same result with every greater fuel,
    and [getPointsWithinCube] gives the same vector. *)
Theorem queries_leave_grid_unchanged (fuel fuel' : nat)
    (pnt center : vec3 double) (half_len : double) (out : list POINT)
    (g : Grid POINT) :
  snd (getNearestPoint POINT getData sqrDist sqrt fuel pnt g) = g /\
  snd (getPointsWithinCube POINT center half_len out g) = g /\
  ((fuel <= fuel')%nat ->
   fst (getNearestPoint POINT getData sqrDist sqrt fuel pnt g) <> OutOfFuel ->
   getNearestPoint POINT getData sqrDist sqrt fuel' pnt
     (snd (getNearestPoint POINT getData sqrDist sqrt fuel pnt g))
   = getNearestPoint POINT getData sqrDist sqrt fuel pnt g) /\
  getPointsWithinCube POINT center half_len out
    (snd (getPointsWithinCube POINT center half_len out g))
  = getPointsWithinCube POINT center half_len out g.
Proof.
  pose proof (leaves_getNearestPoint fuel pnt g) as Hn.
  pose proof (leaves_getPointsWithinCube POINT center half_len out g) as Hc.
  split; [exact Hn|]. split; [exact Hc|]. split.
  - intros Hle Hend. rewrite Hn.
    apply getNearestPoint_more_fuel; assumption.
  - rewrite Hc. reflexivity.
Qed.

End Nearest.

End Queries.

(** ** Construction *)

Section Construction.

Variable POINT : Type.
Variable getData : POINT -> vec3 double.
Variable sqrDist : vec3 double -> vec3 double -> double.
Variable sqrt : double -> double.
Variable pow_third : double -> double.

(** *** The box of points with a zero coordinate *)

Lemma AABB_update_zero (j : nat) (b : AABB) (p : vec3 double) :
  (j < 3)%nat ->
  at3 (aabb_min b) j == 0 -> at3 (aabb_max b) j == 0 -> at3 p j == 0 ->
  at3 (aabb_min (AABB_update b p)) j == 0 /\
  at3 (aabb_max (AABB_update b p)) j == 0.
Proof.
  intros Hj Hmin Hmax Hp. unfold AABB_update. simpl.
  rewrite !at3_build3 by exact Hj.
  split.
  - destruct (Qltb _ _); assumption.
  - destruct (Qltb _ _); assumption.
Qed.

Lemma AABB_fold_zero (j : nat) (ps : list (vec3 double)) (b : AABB) :
  (j < 3)%nat ->
  at3 (aabb_min b) j == 0 -> at3 (aabb_max b) j == 0 ->
  (forall p, In p ps -> at3 p j == 0) ->
  at3 (aabb_min (fold_left AABB_update ps b)) j == 0 /\
  at3 (aabb_max (fold_left AABB_update ps b)) j == 0.
Proof.
  intro Hj. revert b.
  induction ps as [|p ps IH]; intros b Hmin Hmax Hall; simpl.
  - split; assumption.
  - destruct (AABB_update_zero j b p Hj Hmin Hmax (Hall p (or_introl eq_refl)))
      as [Hmin' Hmax'].
    apply IH; try assumption.
    intros q Hq. apply Hall. right. exact Hq.
Qed.

Lemma inflate_max_zero (mn mx : double) :
  mn == 0 -> mx == 0 -> inflate_max mn mx - mn == 0.
Proof.
  intros Hmn Hmx. unfold inflate_max, one_millionth.
  assert (Ha : Qabs mx == 0) by (rewrite Hmx; reflexivity).
  destruct (Qltb _ _); lra.
Qed.

Lemma box_delta_zero (pnts : list POINT) (j : nat) :
  (j < 3)%nat -> pnts <> [] ->
  (forall p, In p pnts -> at3 (getData p) j == 0) ->
  at3 (box_delta POINT getData pnts) j == 0.
Proof.
  intros Hj Hne Hall. unfold box_delta, box_max, box_min.
  rewrite !at3_build3 by exact Hj.
  destruct pnts as [|p ps]; [congruence|]. simpl map. unfold AABB_of.
  destruct (AABB_fold_zero j (map getData ps)
              (mkAABB (getData p) (getData p)) Hj) as [Hmin Hmax].
  - simpl. apply Hall. left. reflexivity.
  - simpl. apply Hall. left. reflexivity.
  - intros q Hq. apply in_map_iff in Hq. destruct Hq as [q' [<- Hq']].
    apply Hall. right. exact Hq'.
  - apply inflate_max_zero; assumption.
Qed.

Lemma is_zero_extent_zero (d : double) : d == 0 -> is_zero_extent d = true.
Proof.
  intro Hd. unfold is_zero_extent, fabs. apply Qltb_true.
  rewrite Hd. reflexivity.
Qed.

Lemma is_zero_extent_large (d : double) :
  epsilon <= fabs d -> is_zero_extent d = false.
Proof.
  intro Hd. unfold is_zero_extent. apply Qltb_false. exact Hd.
Qed.

(** *** The count along the subdivided axis *)

Lemma to_size_t_ceil (x : double) :
  (0 <= Qceiling x < size_t_modulus)%Z -> to_size_t (ceil x) = Qceiling x.
Proof.
  intro H. unfold to_size_t, ceil, Qtrunc.
  rewrite Qfloor_Z, Qceiling_Z.
  destruct (Qle_bool _ _); apply wrap_small; exact H.
Qed.

Lemma Qceiling_quotient_bounds (n m : Z) :
  (0 <= n)%Z -> (0 < m)%Z ->
  (0 <= Qceiling (Zd n / Zd m) <= n)%Z.
Proof.
  intros Hn Hm. unfold Zd.
  assert (Hm' : 0 < inject_Z m).
  { unfold Qlt, inject_Z. simpl. lia. }
  split.
  - rewrite <- (Qceiling_Z 0). apply Qceiling_resp_le.
    apply Qle_shift_div_l; [exact Hm'|].
    unfold Qle, inject_Z. simpl. lia.
  - rewrite <- (Qceiling_Z n) at 2. apply Qceiling_resp_le.
    apply Qle_shift_div_r; [exact Hm'|].
    rewrite <- inject_Z_mult. rewrite <- Zle_Qle. nia.
Qed.

(** C6, amended. When all points lie on the coordinate axis [k], the other
    two coordinates of every point being zero, the cell counts are
    ceil(n_points / max_num_per_grid_cell) on axis [k] and 1 on the two
    others; for [k] other than 0 this needs the enlarged extent along
    axis [k] to reach the machine epsilon. *)
Theorem collinear_on_coordinate_axis_counts (pnts : list POINT)
    (max_num_per_grid_cell : size_t) (k : nat) :
  pnts <> [] ->
  (0 < max_num_per_grid_cell)%Z ->
  (Z.of_nat (length pnts) < size_t_modulus)%Z ->
  (k < 3)%nat ->
  collinear_along k (mk3 0 0 0) (map getData pnts) ->
  (k = 0%nat \/ epsilon <= fabs (at3 (box_delta POINT getData pnts) k)) ->
  _n_steps (fst (Grid_ctor POINT getData sqrt pow_third pnts
                   max_num_per_grid_cell))
  = axis_counts k
      (Qceiling (Zd (Z.of_nat (length pnts)) / Zd max_num_per_grid_cell)).
Proof.
  intros Hne Hmax Hlen Hk Hline Hext.
  assert (Hzero : forall j, (j < 3)%nat -> j <> k ->
            is_zero_extent (at3 (box_delta POINT getData pnts) j) = true).
  { intros j Hj Hjk. apply is_zero_extent_zero.
    apply box_delta_zero; try assumption.
    intros p Hp.
    rewrite (Hline (getData p) j (in_map getData pnts p Hp) Hj Hjk).
    destruct j as [|[|[|j]]]; reflexivity. }
  unfold Grid_ctor. simpl _n_steps. unfold compute_n_steps.
  rewrite to_size_t_ceil.
  2:{ pose proof (Qceiling_quotient_bounds (Z.of_nat (length pnts))
                    max_num_per_grid_cell (Nat2Z.is_nonneg _) Hmax). lia. }
  change (c0 (box_delta POINT getData pnts))
    with (at3 (box_delta POINT getData pnts) 0).
  change (c1 (box_delta POINT getData pnts))
    with (at3 (box_delta POINT getData pnts) 1).
  change (c2 (box_delta POINT getData pnts))
    with (at3 (box_delta POINT getData pnts) 2).
  destruct k as [|[|[|k]]]; [| | |lia].
  - rewrite (Hzero 1%nat) by lia. rewrite (Hzero 2%nat) by lia.
    reflexivity.
  - destruct Hext as [Hext|Hext]; [discriminate|].
    rewrite (is_zero_extent_large _ Hext).
    rewrite (Hzero 0%nat) by lia. rewrite (Hzero 2%nat) by lia.
    reflexivity.
  - destruct Hext as [Hext|Hext]; [discriminate|].
    rewrite (is_zero_extent_large _ Hext).
    rewrite (Hzero 0%nat) by lia. rewrite (Hzero 1%nat) by lia.
    reflexivity.
Qed.

(** *** The buckets hold input points only *)

Lemma fill_In (mn inv : vec3 double) (n_steps : vec3 size_t)
    (pnts : list POINT) (st : (Z -> list POINT) * list string) (idx : Z)
    (p : POINT) :
  In p (fst (fold_left (fill_step POINT getData mn inv n_steps) pnts st) idx) ->
  In p (fst st idx) \/ In p pnts.
Proof.
  revert st. induction pnts as [|q pnts IH]; intros st Hin; simpl in *.
  - left. exact Hin.
  - apply IH in Hin. destruct Hin as [Hin|Hin]; [|right; right; exact Hin].
    unfold fill_step, push_back_at in Hin. simpl in Hin.
    destruct (idx =? _)%Z; [|left; exact Hin].
    apply in_app_or in Hin. destruct Hin as [Hin|[Hin|[]]].
    + left. exact Hin.
    + right. left. exact Hin.
Qed.

Lemma Grid_ctor_bucket_In (pnts : list POINT) (max_num : size_t)
    (cell : vec3 size_t) (p : POINT) :
  In p (bucket (fst (Grid_ctor POINT getData sqrt pow_third pnts max_num)) cell)
  -> In p pnts.
Proof.
  unfold bucket, Grid_ctor. simpl. intro Hin.
  apply fill_In in Hin. destruct Hin as [[]|Hin]. exact Hin.
Qed.

(** C2. In a grid with a single cell along some axis [k], which is every
    grid built by the 1-d and 2-d branches of the constructor, a query whose
    cell is empty never returns: the loops of the ring search start at
    [coords[k] - offset], which wraps around for [coords[k] = 0], so that no
    pass examines a cell of the grid and [nearest_pnt] stays NULL, whatever
    the fuel. The call runs on for ever; when the vector of the cell of the
    query lies outside of the array, it ends in the undefined read of that
    vector before the search starts. *)
Theorem ring_search_never_ends_on_single_cell_axis (g : Grid POINT)
    (pnt : vec3 double) (k : nat) (fuel : nat) :
  (k < 3)%nat ->
  at3 (grid_coords g pnt) k = 0%Z ->
  (at3 (_n_steps g) k <= 1)%Z ->
  bucket g (grid_coords g pnt) = [] ->
  getNearestPoint POINT getData sqrDist sqrt fuel pnt g
  = (if cell_in_array g (grid_coords g pnt) then OutOfFuel else Undefined, g).
Proof.
  intros Hk Hc Hn Hempty.
  rewrite getNearestPoint_empty_cell by exact Hempty.
  destruct (cell_in_array g (grid_coords g pnt)); [|reflexivity].
  unfold bind.
  rewrite ring_search_single_cell_axis with (k := k); try assumption.
  - reflexivity.
  - unfold size_t_modulus. lia.
Qed.

(** C1. Also in a grid built from a non-empty collection without an error
    message, a query that is at least one diagonal of the box away from
    every input point, and whose cell is empty, never returns: the ring
    search takes a candidate only when its squared distance is below the
    squared diagonal, so it refuses every point and runs on, whatever the
    fuel. No result is returned; and when the number of cells fits a
    [size_t] and the vector of the cell of the query lies in the array, no
    read is undefined either: the call runs on for ever. *)
Theorem getNearestPoint_never_returns_far_query (pnts : list POINT)
    (max_num_per_grid_cell : size_t) (pnt : vec3 double) (fuel : nat) :
  let g := fst (Grid_ctor POINT getData sqrt pow_third pnts
                  max_num_per_grid_cell) in
  pnts <> [] ->
  (0 < max_num_per_grid_cell)%Z ->
  snd (Grid_ctor POINT getData sqrt pow_third pnts max_num_per_grid_cell) = []
  ->
  bucket g (grid_coords g pnt) = [] ->
  (forall p, In p pnts ->
     sqrDist (_min_pnt g) (_max_pnt g) <= sqrDist (getData p) pnt) ->
  (forall r,
     fst (getNearestPoint POINT getData sqrDist sqrt fuel pnt g)
     <> Returned r) /\
  ((c0 (_n_steps g) * c1 (_n_steps g) * c2 (_n_steps g)
    < size_t_modulus)%Z ->
   cell_in_array g (grid_coords g pnt) = true ->
   getNearestPoint POINT getData sqrDist sqrt fuel pnt g = (OutOfFuel, g)).
Proof.
  intros g _ _ _ Hempty Hfar.
  assert (Hbuckets : forall cell p, In p (bucket g cell) ->
            sqrDist (_min_pnt g) (_max_pnt g) <= sqrDist (getData p) pnt).
  { intros cell p Hin. apply Hfar.
    apply (Grid_ctor_bucket_In pnts max_num_per_grid_cell cell p Hin). }
  destruct (ring_search_far POINT getData sqrDist fuel pnt (grid_coords g pnt)
              1%Z _ g Hbuckets) as [Hends Hfit].
  rewrite getNearestPoint_empty_cell by exact Hempty.
  split.
  - intro r.
    destruct (cell_in_array g (grid_coords g pnt)); [|discriminate].
    unfold bind. destruct Hends as [-> | ->]; discriminate.
  - intros Hprod ->. unfold bind. rewrite (Hfit Hprod). reflexivity.
Qed.

End Construction.

(** ** What holds where the defects do not reach *)

Section Sound.

Variable POINT : Type.
Variable getData : POINT -> vec3 double.

(** *** The distances to the faces of the first cell *)

(** X4. In a cell whose offset [coords[k] * _step_sizes[k]] is zero on every
    axis, the cell (0, 0, 0) in particular, the six values are the distances
    of a point of the cell to its faces. *)
Theorem border_distances_in_first_cell (g : Grid POINT) (pnt : vec3 double)
    (coords : vec3 size_t) :
  (forall k, (k < 3)%nat ->
     Zd (at3 coords k) * at3 (_step_sizes g) k == 0) ->
  (forall k, (k < 3)%nat ->
     lower_plane g coords k <= at3 pnt k <= upper_plane g coords k) ->
  exists d,
    returns (getPointCellBorderDistances pnt coords) g d /\
    dists_eq d (perpendicular_distances g pnt coords).
Proof.
  intros Hoff Hin.
  eexists. split.
  - unfold returns, getPointCellBorderDistances, bind, member, ret.
    reflexivity.
  - pose proof (Hoff 0%nat ltac:(lia)) as O0.
    pose proof (Hoff 1%nat ltac:(lia)) as O1.
    pose proof (Hoff 2%nat ltac:(lia)) as O2.
    pose proof (Hin 0%nat ltac:(lia)) as [L0 U0].
    pose proof (Hin 1%nat ltac:(lia)) as [L1 U1].
    pose proof (Hin 2%nat ltac:(lia)) as [L2 U2].
    unfold upper_plane, lower_plane, at3 in *.
    unfold dists_eq, perpendicular_distances, upper_plane, lower_plane, at3.
    cbn [dist_bottom dist_front dist_right dist_back dist_left dist_top].
    repeat split.
    + rewrite Qabs_pos; lra.
    + rewrite Qabs_pos; lra.
    + rewrite Qabs_neg; lra.
    + rewrite Qabs_neg; lra.
    + rewrite Qabs_pos; lra.
    + rewrite Qabs_neg; lra.
Qed.

(** *** Sums of bucket sizes *)

Lemma sum_lengths_shift (m : Z -> list POINT) (ks : list Z) (a : Z) :
  fold_left (fun acc k => (acc + Z.of_nat (length (m k)))%Z) ks a
  = (a + fold_left (fun acc k => (acc + Z.of_nat (length (m k)))%Z) ks 0)%Z.
Proof.
  revert a. induction ks as [|k ks IH]; intro a; simpl.
  - lia.
  - rewrite IH. rewrite (IH (Z.of_nat _)). lia.
Qed.

Lemma sum_lengths_push_out (m : Z -> list POINT) (ks : list Z) (idx : Z)
    (p : POINT) (a : Z) :
  ~ In idx ks ->
  fold_left (fun acc k =>
      (acc + Z.of_nat (length (push_back_at m idx p k)))%Z) ks a
  = fold_left (fun acc k => (acc + Z.of_nat (length (m k)))%Z) ks a.
Proof.
  revert a. induction ks as [|k ks IH]; intros a Hout; simpl.
  - reflexivity.
  - rewrite IH by (intro H; apply Hout; right; exact H).
    unfold push_back_at.
    destruct (Z.eqb_spec k idx) as [->|Hne].
    + exfalso. apply Hout. left. reflexivity.
    + reflexivity.
Qed.

Lemma sum_lengths_push_in (m : Z -> list POINT) (ks : list Z) (idx : Z)
    (p : POINT) (a : Z) :
  NoDup ks -> In idx ks ->
  fold_left (fun acc k =>
      (acc + Z.of_nat (length (push_back_at m idx p k)))%Z) ks a
  = (fold_left (fun acc k => (acc + Z.of_nat (length (m k)))%Z) ks a + 1)%Z.
Proof.
  revert a. induction ks as [|k ks IH]; intros a Hnd Hin; simpl.
  - destruct Hin.
  - inversion Hnd as [|k' ks' Hk Hnd']; subst.
    destruct Hin as [->|Hin].
    + rewrite sum_lengths_push_out by exact Hk.
      unfold push_back_at at 1. rewrite Z.eqb_refl.
      rewrite length_app. simpl.
      rewrite sum_lengths_shift.
      rewrite (sum_lengths_shift m ks (a + _)). lia.
    + rewrite IH by assumption.
      unfold push_back_at at 1.
      destruct (Z.eqb_spec k idx) as [->|Hne]; [contradiction|].
      reflexivity.
Qed.


End Sound.

Section SoundConstruction.

Variable POINT : Type.
Variable getData : POINT -> vec3 double.
Variable sqrt : double -> double.
Variable pow_third : double -> double.

(** *** The filling loop when no message is written *)

Lemma cell_coord_bounds (mn inv pnt : vec3 double) (k : nat) :
  (0 <= cell_coord mn inv pnt k < size_t_modulus)%Z.
Proof. unfold cell_coord, to_size_t. apply wrap_bounds. Qed.

Lemma fill_log_nil (mn inv : vec3 double) (n_steps : vec3 size_t)
    (pnts : list POINT) (st : (Z -> list POINT) * list string) :
  snd (fold_left (fill_step POINT getData mn inv n_steps) pnts st) = [] ->
  snd st = [] /\
  forall p, In p pnts -> forall k, (k < 3)%nat ->
    (cell_coord mn inv (getData p) k < at3 n_steps k)%Z.
Proof.
  revert st. induction pnts as [|q pnts IH]; intros st Hlog; simpl in Hlog.
  - split; [exact Hlog|]. intros p [].
  - apply IH in Hlog. destruct Hlog as [Hq Hrest].
    unfold fill_step in Hq. simpl snd in Hq.
    destruct (_ || _) eqn:E.
    + destruct (snd st); discriminate Hq.
    + split; [exact Hq|].
      apply orb_false_iff in E. destruct E as [E E2].
      apply orb_false_iff in E. destruct E as [E0 E1].
      apply Z.leb_gt in E0, E1, E2. simpl in E0, E1, E2.
      intros p [<-|Hp] k Hk.
      * destruct k as [|[|[|k]]]; simpl; assumption || lia.
      * apply Hrest; assumption.
Qed.

Lemma fill_sum (mn inv : vec3 double) (n_steps : vec3 size_t) (N : Z)
    (pnts : list POINT) (st : (Z -> list POINT) * list string) :
  (forall p, In p pnts ->
     (0 <= flat_index n_steps (build3 (cell_coord mn inv (getData p))) < N)%Z)
  ->
  fold_left (fun acc k => (acc + Z.of_nat (length
       (fst (fold_left (fill_step POINT getData mn inv n_steps) pnts st) k)))%Z)
    (range 0 N) 0%Z
  = (fold_left (fun acc k => (acc + Z.of_nat (length (fst st k)))%Z)
       (range 0 N) 0
     + Z.of_nat (length pnts))%Z.
Proof.
  revert st. induction pnts as [|q pnts IH]; intros st Hidx.
  - simpl. lia.
  - simpl fold_left at 2. rewrite IH.
    2:{ intros p Hp. apply Hidx. right. exact Hp. }
    unfold fill_step at 1. simpl fst.
    rewrite sum_lengths_push_in.
    + simpl length. lia.
    + apply NoDup_range.
    + apply In_range. apply Hidx. left. reflexivity.
Qed.


(** X1. When the constructor, given a positive [max_num_per_grid_cell],
    writes no message, and the number of cells fits a [size_t], the sizes of
    the buckets of the array add up to the number of input points. *)
Theorem bucket_sizes_sum_when_no_error (pnts : list POINT)
    (max_num_per_grid_cell : size_t) :
  let r := Grid_ctor POINT getData sqrt pow_third pnts max_num_per_grid_cell in
  (0 < max_num_per_grid_cell)%Z ->
  snd r = [] ->
  (c0 (_n_steps (fst r)) * c1 (_n_steps (fst r)) * c2 (_n_steps (fst r))
   < size_t_modulus)%Z ->
  bucket_sizes_sum (fst r) = Z.of_nat (length pnts).
Proof.
  intros r _ Hlog Hprod.
  unfold r, Grid_ctor in Hlog. simpl snd in Hlog.
  apply fill_log_nil in Hlog. destruct Hlog as [_ Hcells].
  unfold bucket_sizes_sum, n_buckets, r, Grid_ctor. simpl fst.
  cbn [_grid_quad_to_node_map _n_steps].
  unfold r, Grid_ctor in Hprod. simpl fst in Hprod.
  cbn [_n_steps] in Hprod.
  rewrite fill_sum.
  - simpl fst.
    assert (Hz : forall ks : list Z, fold_left (fun (acc : Z) (k : Z) =>
               (acc + Z.of_nat (@length POINT []))%Z) ks 0%Z = 0%Z).
    { induction ks as [|k ks IH]; simpl; [reflexivity|exact IH]. }
    rewrite Hz. lia.
  - intros p Hp. apply flat_index_in_array; try exact Hprod; simpl.
    + split; [apply cell_coord_bounds|]. apply (Hcells p Hp 0%nat). lia.
    + split; [apply cell_coord_bounds|]. apply (Hcells p Hp 1%nat). lia.
    + split; [apply cell_coord_bounds|]. apply (Hcells p Hp 2%nat). lia.
Qed.

End SoundConstruction.

(** ** The vectors of a built grid, and the queries on it *)

Lemma NoDup_flat_map_disjoint (A B : Type) (f : A -> list B) (l : list A) :
  NoDup l ->
  (forall x, In x l -> NoDup (f x)) ->
  (forall x y b, In x l -> In y l -> In b (f x) -> In b (f y) -> x = y) ->
  NoDup (flat_map f l).
Proof.
  induction l as [|x l IH]; intros Hnd Hf Hdis; simpl.
  - constructor.
  - inversion Hnd as [|x' l' Hx Hl]; subst.
    apply NoDup_app.
    + apply Hf. left. reflexivity.
    + apply IH; [exact Hl| |].
      * intros y Hy. apply Hf. right. exact Hy.
      * intros y z b Hy Hz. apply Hdis; right; assumption.
    + intros b Hb Hb'. apply in_flat_map in Hb'.
      destruct Hb' as [y [Hy Hby]].
      assert (E : x = y).
      { apply (Hdis x y b); [left; reflexivity|right; exact Hy| |]; assumption. }
      subst y. contradiction.
Qed.

Lemma resolve_coord_nonneg (mn mx inv : Q) (n : Z) (x : Q) :
  (0 <= resolve_coord mn mx inv n x)%Z.
Proof.
  unfold resolve_coord.
  destruct (Qltb x mn); [lia|].
  destruct (Qltb mx x); [apply wrap_bounds|].
  unfold to_size_t. apply wrap_bounds.
Qed.

Lemma grid_coords_nonneg (POINT : Type) (g : Grid POINT) (pnt : vec3 double)
    (k : nat) :
  (0 <= at3 (grid_coords g pnt) k)%Z.
Proof.
  unfold grid_coords.
  destruct k as [|[|k]]; simpl; apply resolve_coord_nonneg.
Qed.

(** The exclusive upper bound of a loop over cells of the grid does not
    wrap around. *)
Lemma upper_bound_no_wrap (POINT : Type) (g : Grid POINT) (hi : vec3 size_t) :
  (forall k, (k < 3)%nat -> (0 <= at3 hi k < at3 (_n_steps g) k)%Z) ->
  (c0 (_n_steps g) * c1 (_n_steps g) * c2 (_n_steps g) < size_t_modulus)%Z ->
  forall k, (k < 3)%nat -> wrap (at3 hi k + 1) = (at3 hi k + 1)%Z.
Proof.
  intros Hhi Hfit k Hk.
  pose proof (Hhi 0%nat ltac:(lia)) as H0.
  pose proof (Hhi 1%nat ltac:(lia)) as H1.
  pose proof (Hhi 2%nat ltac:(lia)) as H2.
  simpl in H0, H1, H2.
  assert (Hn : (at3 (_n_steps g) k < size_t_modulus)%Z).
  { destruct (_n_steps g) as [a b c]. simpl in *.
    assert (Hab : (a <= a * b)%Z) by nia.
    assert (Hb : (b <= a * b)%Z) by nia.
    assert (Habc : (a * b <= a * b * c)%Z) by nia.
    assert (Hc : (c <= a * b * c)%Z) by nia.
    destruct k as [|[|[|k]]]; [| | |lia]; simpl; lia. }
  specialize (Hhi k Hk). apply wrap_small. lia.
Qed.

(** The cells between two corners that lie in the grid have their vectors
    in the array, when the number of cells fits a [size_t]. *)
Lemma cells_in_array_inside (POINT : Type) (g : Grid POINT)
    (lo hi : vec3 size_t) :
  (forall k, (k < 3)%nat -> (0 <= at3 lo k)%Z) ->
  (forall k, (k < 3)%nat -> (0 <= at3 hi k < at3 (_n_steps g) k)%Z) ->
  (c0 (_n_steps g) * c1 (_n_steps g) * c2 (_n_steps g) < size_t_modulus)%Z ->
  (forall k x, (k < 3)%nat ->
     In x (range (at3 lo k) (wrap (at3 hi k + 1))) ->
     (0 <= x < at3 (_n_steps g) k)%Z) /\
  cells_in_array g lo hi = true.
Proof.
  intros Hlo Hhi Hfit.
  pose proof (Hhi 0%nat ltac:(lia)) as H0.
  pose proof (Hhi 1%nat ltac:(lia)) as H1.
  pose proof (Hhi 2%nat ltac:(lia)) as H2.
  simpl in H0, H1, H2.
  assert (Hrange : forall k x, (k < 3)%nat ->
            In x (range (at3 lo k) (wrap (at3 hi k + 1))) ->
            (0 <= x < at3 (_n_steps g) k)%Z).
  { intros k x Hk Hx. apply In_range in Hx.
    rewrite (upper_bound_no_wrap POINT g hi Hhi Hfit k Hk) in Hx.
    specialize (Hlo k Hk). specialize (Hhi k Hk). lia. }
  split; [exact Hrange|].
  unfold cells_in_array.
  apply forallb_forall. intros x0 X0.
  apply forallb_forall. intros x1 X1.
  apply forallb_forall. intros x2 X2.
  apply cell_in_array_inside; simpl; try exact Hfit.
  - apply (Hrange 0%nat); [lia|exact X0].
  - apply (Hrange 1%nat); [lia|exact X1].
  - apply (Hrange 2%nat); [lia|exact X2].
Qed.

Section Buckets.

Variable POINT : Type.
Variable getData : POINT -> vec3 double.
Variable sqrDist : vec3 double -> vec3 double -> double.
Variable sqrt : double -> double.
Variable pow_third : double -> double.

Lemma fill_filter (mn inv : vec3 double) (n_steps : vec3 size_t)
    (pnts : list POINT) (st : (Z -> list POINT) * list string) (idx : Z) :
  fst (fold_left (fill_step POINT getData mn inv n_steps) pnts st) idx
  = fst st idx
    ++ filter (fun p => (idx =? flat_index n_steps
                                  (build3 (cell_coord mn inv (getData p))))%Z)
              pnts.
Proof.
  revert st. induction pnts as [|q pnts IH]; intro st; simpl.
  - rewrite app_nil_r. reflexivity.
  - rewrite IH. unfold fill_step, push_back_at. simpl fst.
    destruct (idx =? _)%Z.
    + rewrite <- app_assoc. reflexivity.
    + reflexivity.
Qed.

(** X3. After the construction the vector at every index, inside of the
    array or not, lists the input points for which the constructor computed
    this index, each once per occurrence in the input and in the order of
    the input. *)
Theorem buckets_list_points_by_cell_index (pnts : list POINT)
    (max_num_per_grid_cell : size_t) (idx : Z) :
  let g := fst (Grid_ctor POINT getData sqrt pow_third pnts
                  max_num_per_grid_cell) in
  _grid_quad_to_node_map g idx
  = filter (fun p => (idx =? cell_index g (getData p))%Z) pnts.
Proof.
  intro g. unfold g, cell_index, Grid_ctor. simpl.
  rewrite fill_filter. reflexivity.
Qed.

(** The last part of the nearest-point query returns the candidate or a
    point of a vector. *)
Lemma nearest_in_cube_universe (universe : POINT -> Prop)
    (pnt : vec3 double) (d : double) (p : POINT) (g g' : Grid POINT)
    (res : option POINT) :
  nearest_in_cube POINT getData sqrDist sqrt pnt d p g = (Returned res, g') ->
  (forall cell q, In q (bucket g cell) -> universe q) ->
  universe p ->
  exists q, res = Some q /\ universe q.
Proof.
  unfold nearest_in_cube, bind.
  rewrite getPointsWithinCube_value.
  destruct (cells_in_array g _ _); [|discriminate].
  unfold ret. intros H Hall Hp. injection H as <- _.
  eexists. split; [reflexivity|].
  apply fold_nearer_of_universe; [exact Hp|].
  intros q Hq. simpl in Hq. apply cube_contents_In in Hq.
  destruct Hq as [cell Hq]. apply (Hall cell q Hq).
Qed.

(** The nearest-point query returns a point of a vector, never NULL. *)
Lemma getNearestPoint_universe (universe : POINT -> Prop) (fuel : nat)
    (pnt : vec3 double) (g g' : Grid POINT) (res : option POINT) :
  getNearestPoint POINT getData sqrDist sqrt fuel pnt g = (Returned res, g') ->
  (forall cell q, In q (bucket g cell) -> universe q) ->
  exists q, res = Some q /\ universe q.
Proof.
  destruct (getNearestPoint_value POINT getData sqrDist sqrt fuel pnt g)
    as [dists [_ ->]].
  destruct (cell_in_array g (grid_coords g pnt)); [|discriminate].
  destruct (scan_bucket _ _ _ _ _) as [[d p]|] eqn:Hscan.
  - apply scan_bucket_some in Hscan. destruct Hscan as [_ Hin].
    cbv zeta. destruct (_ && _).
    + intros H Hall. injection H as <- _.
      exists p. split; [reflexivity|]. apply (Hall _ p Hin).
    + intros H Hall.
      apply (nearest_in_cube_universe universe _ _ _ _ _ _ H Hall).
      apply (Hall _ p Hin).
  - unfold bind.
    pose proof (leaves_ring_search POINT getData sqrDist fuel pnt
                  (grid_coords g pnt) 1%Z
                  (sqrDist (_min_pnt g) (_max_pnt g)) g) as Hg.
    destruct (ring_search POINT getData sqrDist fuel pnt (grid_coords g pnt)
                1%Z (sqrDist (_min_pnt g) (_max_pnt g)) g)
      as [[[d p]| |] g1] eqn:Hring; try discriminate.
    simpl in Hg. subst g1.
    apply ring_search_candidate in Hring. destruct Hring as [_ [cell Hin]].
    intros H Hall.
    apply (nearest_in_cube_universe universe _ _ _ _ _ _ H Hall).
    apply (Hall cell p Hin).
Qed.

(** X6. A grid whose vectors are all empty, the grid of an empty collection
    for one, never answers a nearest-point query, for which the
    documentation of the method promises NULL: the call runs on for ever or
    ends in an undefined read. The cube query returns the vector it was
    given, or ends in an undefined read. *)
Theorem queries_on_grid_without_points (g : Grid POINT) (fuel : nat)
    (pnt center : vec3 double) (half_len : double) (out : list POINT) :
  (forall idx, _grid_quad_to_node_map g idx = []) ->
  (forall r,
     fst (getNearestPoint POINT getData sqrDist sqrt fuel pnt g)
     <> Returned r) /\
  (getPointsWithinCube POINT center half_len out g = (Returned out, g) \/
   getPointsWithinCube POINT center half_len out g = (Undefined, g)).
Proof.
  intro Hnone.
  assert (Hempty : forall cell, bucket g cell = []).
  { intro cell. unfold bucket. apply Hnone. }
  split.
  - intro r.
    rewrite getNearestPoint_empty_cell by apply Hempty.
    destruct (cell_in_array g (grid_coords g pnt)); [|discriminate].
    unfold bind.
    destruct (ring_search_far POINT getData sqrDist fuel pnt
                (grid_coords g pnt) 1%Z
                (sqrDist (_min_pnt g) (_max_pnt g)) g) as [[-> | ->] _];
      try discriminate.
    intros cell p Hin. rewrite Hempty in Hin. destruct Hin.
  - rewrite getPointsWithinCube_value.
    destruct (cells_in_array g _ _); [left|right; reflexivity].
    assert (E : forall lo hi, cube_contents g lo hi = []).
    { intros lo hi.
      destruct (cube_contents g lo hi) as [|q qs] eqn:Hq; [reflexivity|].
      assert (Hin : In q (cube_contents g lo hi))
        by (rewrite Hq; left; reflexivity).
      apply cube_contents_In in Hin. destruct Hin as [cell Hin].
      rewrite Hempty in Hin. destruct Hin. }
    rewrite E, app_nil_r. reflexivity.
Qed.

Variable pnts : list POINT.
Variable max_num_per_grid_cell : size_t.

Let r : Grid POINT * list string :=
  Grid_ctor POINT getData sqrt pow_third pnts max_num_per_grid_cell.
Let g : Grid POINT := fst r.

(** The bucket of a cell lists the input points the constructor computed
    the index of this cell for, in the order of the input. *)
Lemma bucket_filter (cell : vec3 size_t) :
  bucket g cell
  = filter (fun p =>
      (flat_index (_n_steps g) cell =? cell_index g (getData p))%Z) pnts.
Proof.
  unfold bucket. rewrite flat_index_bucket.
  apply (buckets_list_points_by_cell_index pnts max_num_per_grid_cell).
Qed.

Lemma ctor_stores (p : POINT) :
  In p pnts ->
  In p (bucket g
          (build3 (cell_coord (_min_pnt g) (_inverse_step_sizes g)
                     (getData p)))).
Proof.
  intro Hp. rewrite bucket_filter. apply filter_In. split; [exact Hp|].
  apply Z.eqb_eq. reflexivity.
Qed.

(** X5. Whenever the nearest-point query on a built grid returns, it
    returns an input point, never NULL. *)
Theorem getNearestPoint_returns_an_input_point (fuel : nat)
    (pnt : vec3 double) (res : option POINT) (g' : Grid POINT) :
  getNearestPoint POINT getData sqrDist sqrt fuel pnt g = (Returned res, g') ->
  exists nearest, res = Some nearest /\ In nearest pnts.
Proof.
  intro H.
  apply (getNearestPoint_universe (fun q => In q pnts) _ _ _ _ _ H).
  intros cell q Hq.
  apply (Grid_ctor_bucket_In POINT getData sqrt pow_third pnts
           max_num_per_grid_cell cell q Hq).
Qed.

(** X2. The cube query on a built grid returns every input point whose
    cell, as the constructor computed it, lies between the cells [lo] and
    [hi] that [getGridCoords] resolves the two corners of the cube to, when
    [hi] is a cell of the grid and the number of cells fits a [size_t]. *)
Theorem cube_query_returns_stored_points (center : vec3 double)
    (half_len : double) (out : list POINT) (p : POINT)
    (lo hi : vec3 size_t) :
  In p pnts ->
  returns (getGridCoords (build3 (fun k => at3 center k - half_len))) g lo ->
  returns (getGridCoords (build3 (fun k => at3 center k + half_len))) g hi ->
  (forall k, (k < 3)%nat ->
     (at3 lo k
      <= cell_coord (_min_pnt g) (_inverse_step_sizes g) (getData p) k
      <= at3 hi k)%Z /\
     (at3 hi k < at3 (_n_steps g) k)%Z) ->
  (c0 (_n_steps g) * c1 (_n_steps g) * c2 (_n_steps g) < size_t_modulus)%Z ->
  exists res,
    returns (getPointsWithinCube POINT center half_len out) g res /\
    In p res.
Proof.
  intros Hp Hlo Hhi0 Hcell Hfit.
  rewrite (returns_fun _ _ _ _ _ _ Hlo (getGridCoords_returns _ _ g)) in *.
  rewrite (returns_fun _ _ _ _ _ _ Hhi0 (getGridCoords_returns _ _ g)) in *.
  clear Hlo Hhi0 lo hi.
  fold (cube_lower g center half_len) in *.
  fold (cube_upper g center half_len) in *.
  set (lo := cube_lower g center half_len) in *.
  set (hi := cube_upper g center half_len) in *.
  assert (Hhi : forall k, (k < 3)%nat ->
            (0 <= at3 hi k < at3 (_n_steps g) k)%Z).
  { intros k Hk. split; [apply grid_coords_nonneg|]. apply (Hcell k Hk). }
  destruct (cells_in_array_inside POINT g lo hi) as [_ Hin];
    try assumption.
  { intros k _. apply grid_coords_nonneg. }
  eexists. split.
  - unfold returns. rewrite getPointsWithinCube_value.
    fold lo. fold hi. rewrite Hin. reflexivity.
  - apply in_or_app. right.
    assert (Haxis : forall k, (k < 3)%nat ->
              In (cell_coord (_min_pnt g) (_inverse_step_sizes g)
                    (getData p) k)
                 (range (at3 lo k) (wrap (at3 hi k + 1)))).
    { intros k Hk. apply In_range.
      rewrite (upper_bound_no_wrap POINT g hi) by assumption.
      specialize (Hcell k Hk). lia. }
    pose proof (Haxis 0%nat ltac:(lia)) as A0.
    pose proof (Haxis 1%nat ltac:(lia)) as A1.
    pose proof (Haxis 2%nat ltac:(lia)) as A2.
    unfold cube_contents.
    apply in_flat_map. eexists. split; [exact A0|].
    apply in_flat_map. eexists. split; [exact A1|].
    apply in_flat_map. eexists. split; [exact A2|].
    apply ctor_stores. exact Hp.
Qed.

(** X8. The cube query on a grid built from distinct points reports no
    point twice, and input points only, when the cell [hi] that
    [getGridCoords] resolves the upper corner of the cube to is a cell of
    the grid and the number of cells fits a [size_t]. *)
Theorem cube_query_reports_each_point_once (center : vec3 double)
    (half_len : double) (hi : vec3 size_t) :
  NoDup pnts ->
  returns (getGridCoords (build3 (fun k => at3 center k + half_len))) g hi ->
  (forall k, (k < 3)%nat -> (at3 hi k < at3 (_n_steps g) k)%Z) ->
  (c0 (_n_steps g) * c1 (_n_steps g) * c2 (_n_steps g) < size_t_modulus)%Z ->
  exists res,
    returns (getPointsWithinCube POINT center half_len []) g res /\
    NoDup res /\
    forall p, In p res -> In p pnts.
Proof.
  intros Hnd Hhi0 Hup Hfit.
  rewrite (returns_fun _ _ _ _ _ _ Hhi0 (getGridCoords_returns _ _ g)) in *.
  clear Hhi0 hi.
  fold (cube_upper g center half_len) in *.
  set (lo := cube_lower g center half_len) in *.
  set (hi := cube_upper g center half_len) in *.
  assert (Hhi : forall k, (k < 3)%nat ->
            (0 <= at3 hi k < at3 (_n_steps g) k)%Z).
  { intros k Hk. split; [apply grid_coords_nonneg|]. apply (Hup k Hk). }
  destruct (cells_in_array_inside POINT g lo hi) as [Hrange Hin];
    try assumption.
  { intros k _. apply grid_coords_nonneg. }
  eexists. split.
  { unfold returns. rewrite getPointsWithinCube_value.
    fold lo. fold hi. rewrite Hin. reflexivity. }
  simpl app. split.
  2:{ intros p Hp. apply cube_contents_In in Hp. destruct Hp as [cell Hp].
      apply (Grid_ctor_bucket_In POINT getData sqrt pow_third pnts
               max_num_per_grid_cell cell p Hp). }
  assert (Hkey : forall cell p, In p (bucket g cell) ->
            cell_index g (getData p) = flat_index (_n_steps g) cell).
  { intros cell p Hp. rewrite bucket_filter in Hp.
    apply filter_In in Hp. destruct Hp as [_ Hp].
    apply Z.eqb_eq in Hp. symmetry. exact Hp. }
  assert (Hinj : forall x0 x1 x2 y0 y1 y2 p,
            In x0 (range (at3 lo 0) (wrap (at3 hi 0 + 1))) ->
            In x1 (range (at3 lo 1) (wrap (at3 hi 1 + 1))) ->
            In x2 (range (at3 lo 2) (wrap (at3 hi 2 + 1))) ->
            In y0 (range (at3 lo 0) (wrap (at3 hi 0 + 1))) ->
            In y1 (range (at3 lo 1) (wrap (at3 hi 1 + 1))) ->
            In y2 (range (at3 lo 2) (wrap (at3 hi 2 + 1))) ->
            In p (bucket g (mk3 x0 x1 x2)) ->
            In p (bucket g (mk3 y0 y1 y2)) ->
            @mk3 size_t x0 x1 x2 = mk3 y0 y1 y2).
  { intros x0 x1 x2 y0 y1 y2 p X0 X1 X2 Y0 Y1 Y2 Hx Hy.
    apply (flat_index_injective (_n_steps g)); cbn [c0 c1 c2];
      try exact Hfit.
    - apply (Hrange 0%nat); [lia|exact X0].
    - apply (Hrange 1%nat); [lia|exact X1].
    - apply (Hrange 2%nat); [lia|exact X2].
    - apply (Hrange 0%nat); [lia|exact Y0].
    - apply (Hrange 1%nat); [lia|exact Y1].
    - apply (Hrange 2%nat); [lia|exact Y2].
    - exact (eq_trans (eq_sym (Hkey _ p Hx)) (Hkey _ p Hy)). }
  unfold cube_contents.
  change (c0 lo) with (at3 lo 0). change (c1 lo) with (at3 lo 1).
  change (c2 lo) with (at3 lo 2). change (c0 hi) with (at3 hi 0).
  change (c1 hi) with (at3 hi 1). change (c2 hi) with (at3 hi 2).
  apply NoDup_flat_map_disjoint.
  - apply NoDup_range.
  - intros x0 X0. apply NoDup_flat_map_disjoint.
    + apply NoDup_range.
    + intros x1 X1. apply NoDup_flat_map_disjoint.
      * apply NoDup_range.
      * intros x2 X2. rewrite bucket_filter. apply NoDup_filter. exact Hnd.
      * intros x2 y2 p X2 Y2 Hx Hy.
        pose proof (Hinj x0 x1 x2 x0 x1 y2 p X0 X1 X2 X0 X1 Y2 Hx Hy) as E.
        congruence.
    + intros x1 y1 p X1 Y1 Hx Hy.
      apply in_flat_map in Hx. destruct Hx as [x2 [X2 Hx]].
      apply in_flat_map in Hy. destruct Hy as [y2 [Y2 Hy]].
      pose proof (Hinj x0 x1 x2 x0 y1 y2 p X0 X1 X2 X0 Y1 Y2 Hx Hy) as E.
      congruence.
  - intros x0 y0 p X0 Y0 Hx Hy.
    apply in_flat_map in Hx. destruct Hx as [x1 [X1 Hx]].
    apply in_flat_map in Hx. destruct Hx as [x2 [X2 Hx]].
    apply in_flat_map in Hy. destruct Hy as [y1 [Y1 Hy]].
    apply in_flat_map in Hy. destruct Hy as [y2 [Y2 Hy]].
    pose proof (Hinj x0 x1 x2 y0 y1 y2 p X0 X1 X2 Y0 Y1 Y2 Hx Hy) as E.
    congruence.
Qed.

End Buckets.

(** ** The scan of one vector *)

Section Scans.

Variable POINT : Type.
Variable getData : POINT -> vec3 double.
Variable sqrDist : vec3 double -> vec3 double -> double.

Lemma fold_nearer_le (pnt : vec3 double) (pts : list POINT)
    (best : double * POINT) :
  fst (fold_left (nearer POINT getData sqrDist pnt) pts best) <= fst best /\
  forall q, In q pts ->
    fst (fold_left (nearer POINT getData sqrDist pnt) pts best)
    <= sqrDist (getData q) pnt.
Proof.
  revert best. induction pts as [|p pts IH]; intro best; simpl.
  - split; [lra|]. intros q [].
  - destruct (IH (nearer POINT getData sqrDist pnt best p)) as [Hle Hall].
    assert (Hstep : fst (nearer POINT getData sqrDist pnt best p) <= fst best /\
                    fst (nearer POINT getData sqrDist pnt best p)
                    <= sqrDist (getData p) pnt).
    { unfold nearer. destruct (Qltb _ _) eqn:E; simpl.
      - apply Qltb_true in E. lra.
      - apply Qltb_false in E. lra. }
    split; [lra|].
    intros q [<-|Hq]; [lra|]. apply Hall. exact Hq.
Qed.

Lemma scan_bucket_min (pnt : vec3 double) (pts : list POINT) (d : double)
    (p : POINT) :
  scan_bucket POINT getData sqrDist pnt pts = Some (d, p) ->
  forall q, In q pts -> d <= sqrDist (getData q) pnt.
Proof.
  destruct pts as [|p0 rest]; simpl; [discriminate|].
  intro H. injection H as H.
  destruct (fold_nearer_le pnt rest (sqrDist (getData p0) pnt, p0))
    as [Hle Hall].
  rewrite H in Hle, Hall. simpl in Hle, Hall.
  intros q [<-|Hq]; [exact Hle|]. apply Hall. exact Hq.
Qed.

(** The scan keeps the first of the points at the least distance: the
    comparison is strict. *)
Lemma fold_nearer_first (pnt : vec3 double) (rest pre post : list POINT)
    (best : double * POINT) :
  fst best = sqrDist (getData (snd best)) pnt ->
  (forall q, In q pre -> fst best < sqrDist (getData q) pnt) ->
  (forall q, In q post -> fst best <= sqrDist (getData q) pnt) ->
  let r := fold_left (nearer POINT getData sqrDist pnt) rest best in
  exists pre' post',
    pre ++ snd best :: post ++ rest = pre' ++ snd r :: post' /\
    fst r = sqrDist (getData (snd r)) pnt /\
    (forall q, In q pre' -> fst r < sqrDist (getData q) pnt) /\
    (forall q, In q post' -> fst r <= sqrDist (getData q) pnt).
Proof.
  revert pre post best.
  induction rest as [|p rest IH]; intros pre post best Hd Hpre Hpost;
    cbv zeta; simpl fold_left.
  - exists pre, post. rewrite app_nil_r. repeat split; assumption.
  - destruct (Qltb (sqrDist (getData p) pnt) (fst best)) eqn:E.
    + assert (En : nearer POINT getData sqrDist pnt best p
                   = (sqrDist (getData p) pnt, p)).
      { unfold nearer. rewrite E. reflexivity. }
      rewrite En. apply Qltb_true in E.
      destruct (IH (pre ++ snd best :: post) [] (sqrDist (getData p) pnt, p))
        as [pre' [post' [Heq Hrest]]].
      * reflexivity.
      * simpl. intros q Hq. apply in_app_or in Hq.
        destruct Hq as [Hq|[<-|Hq]].
        -- specialize (Hpre q Hq). lra.
        -- rewrite <- Hd. exact E.
        -- specialize (Hpost q Hq). lra.
      * intros q [].
      * exists pre', post'. split; [|exact Hrest].
        rewrite <- Heq. simpl. rewrite <- app_assoc. reflexivity.
    + assert (En : nearer POINT getData sqrDist pnt best p = best).
      { unfold nearer. rewrite E. reflexivity. }
      rewrite En. apply Qltb_false in E.
      destruct (IH pre (post ++ [p]) best Hd Hpre)
        as [pre' [post' [Heq Hrest]]].
      * intros q Hq. apply in_app_or in Hq.
        destruct Hq as [Hq|[<-|[]]]; [apply Hpost; exact Hq|exact E].
      * exists pre', post'. split; [|exact Hrest].
        rewrite <- Heq. rewrite <- app_assoc. reflexivity.
Qed.

(** X7. The scan of the vector of a cell that lies in the array returns
    [false] exactly when the vector is empty. Otherwise it returns [true]
    with a point of the vector and its squared distance to the query, as
    [sqrDist] gives it: the first of the points of the vector at the least
    such distance, no point before it being as near and no point after it
    being nearer. *)
Theorem calcNearestPointInGridCell_first_nearest (pnt : vec3 double)
    (coords : vec3 size_t) (g : Grid POINT) :
  cell_in_array g coords = true ->
  exists found,
    returns (calcNearestPointInGridCell POINT getData sqrDist pnt coords) g
            found /\
    match found with
    | None => bucket g coords = []
    | Some (d, p) =>
        d = sqrDist (getData p) pnt /\
        exists pre post,
          bucket g coords = pre ++ p :: post /\
          (forall q, In q pre -> d < sqrDist (getData q) pnt) /\
          (forall q, In q post -> d <= sqrDist (getData q) pnt)
    end.
Proof.
  intro Hin. eexists. split.
  { unfold returns. rewrite calcNearestPointInGridCell_value, Hin.
    reflexivity. }
  destruct (bucket g coords) as [|p0 rest]; simpl; [reflexivity|].
  destruct (fold_nearer_first pnt rest [] [] (sqrDist (getData p0) pnt, p0))
    as [pre [post [Heq [Hd [Hpre Hpost]]]]].
  - reflexivity.
  - intros q [].
  - intros q [].
  - simpl in Heq, Hd, Hpre, Hpost.
    destruct (fold_left _ _ _) as [d p]. simpl in *.
    split; [exact Hd|]. exists pre, post. repeat split; assumption.
Qed.

End Scans.

(** ** The ring search where it ends *)

Section RingFinds.

Variable POINT : Type.
Variable getData : POINT -> vec3 double.
Variable sqrDist : vec3 double -> vec3 double -> double.

(** Two facts a loop keeps when each run of its body keeps them, up to an
    undefined read. *)
Lemma for_each_keeps (S : Type) (Good Found : S -> Prop) (ts : list Z)
    (body : Z -> S -> M POINT S) (g : Grid POINT) :
  (forall t st,
     body t st g = (Undefined, g) \/
     exists st', body t st g = (Returned st', g) /\ (Good st -> Good st')
                 /\ (Found st -> Found st')) ->
  forall st,
    for_each ts body st g = (Undefined, g) \/
    exists st', for_each ts body st g = (Returned st', g)
                /\ (Good st -> Good st') /\ (Found st -> Found st').
Proof.
  intro Hbody. induction ts as [|t ts IH]; intro st; simpl.
  - right. exists st. split; [reflexivity|tauto].
  - unfold bind.
    destruct (Hbody t st) as [-> | [st1 [-> [G1 F1]]]]; [left; reflexivity|].
    destruct (IH st1) as [H|[st2 [H2 [G2 F2]]]]; [left; exact H|].
    right. exists st2. split; [exact H2|tauto].
Qed.

(** A loop reaches [Found] when one run of its body does. *)
Lemma for_each_reaches (S : Type) (Good Found : S -> Prop) (ts : list Z)
    (body : Z -> S -> M POINT S) (g : Grid POINT) (t0 : Z) :
  (forall t st,
     body t st g = (Undefined, g) \/
     exists st', body t st g = (Returned st', g) /\ (Good st -> Good st')
                 /\ (Found st -> Found st')) ->
  In t0 ts ->
  (forall st, Good st ->
     body t0 st g = (Undefined, g) \/
     exists st', body t0 st g = (Returned st', g) /\ Found st') ->
  forall st, Good st ->
    for_each ts body st g = (Undefined, g) \/
    exists st', for_each ts body st g = (Returned st', g) /\ Found st'.
Proof.
  intros Hbody Hin Hhit.
  induction ts as [|t ts IH]; intros st Hgood; simpl; [destruct Hin|].
  unfold bind.
  destruct Hin as [->|Hin].
  - destruct (Hhit st Hgood) as [-> | [st1 [-> Hf]]]; [left; reflexivity|].
    destruct (for_each_keeps S Good Found ts body g Hbody st1)
      as [H|[st2 [H2 [_ F2]]]]; [left; exact H|].
    right. exists st2. split; [exact H2|tauto].
  - destruct (Hbody t st) as [-> | [st1 [-> [G1 F1]]]]; [left; reflexivity|].
    destruct (IH Hin st1 (G1 Hgood)) as [H|[st2 [H2 Hf]]]; [left; exact H|].
    right. exists st2. split; [exact H2|exact Hf].
Qed.

Variable g : Grid POINT.
Variable pnt : vec3 double.
Variable coords : vec3 size_t.
Variable d0 : double.

(** The state of a pass that was started with the NULL pointer: while the
    pointer is NULL, [sqr_min_dist] is what it was. *)
Let Good (st : double * option POINT) : Prop := snd st = None -> fst st = d0.
Let Found (st : double * option POINT) : Prop := snd st <> None.

Lemma ring_cell_keeps (tmp : vec3 size_t) (st : double * option POINT) :
  ring_cell POINT getData sqrDist pnt coords tmp st g = (Undefined, g) \/
  exists st',
    ring_cell POINT getData sqrDist pnt coords tmp st g = (Returned st', g)
    /\ (Good st -> Good st') /\ (Found st -> Found st').
Proof.
  rewrite ring_cell_value.
  destruct (negb _ && _); [|right; exists st; split; [reflexivity|tauto]].
  destruct (cell_in_array g tmp); [|left; reflexivity].
  destruct (scan_bucket _ _ _ _ _) as [[d p]|];
    [|right; exists st; split; [reflexivity|tauto]].
  destruct (Qltb d (fst st));
    [|right; exists st; split; [reflexivity|tauto]].
  right. exists (d, Some p). split; [reflexivity|].
  unfold Good, Found. simpl. split; intros; congruence.
Qed.

Lemma ring_cell_hits (cell : vec3 size_t) (p : POINT)
    (st : double * option POINT) :
  cell <> coords ->
  (forall k, (k < 3)%nat -> (at3 cell k < at3 (_n_steps g) k)%Z) ->
  In p (bucket g cell) ->
  sqrDist (getData p) pnt < d0 ->
  Good st ->
  ring_cell POINT getData sqrDist pnt coords cell st g = (Undefined, g) \/
  exists st',
    ring_cell POINT getData sqrDist pnt coords cell st g = (Returned st', g)
    /\ Found st'.
Proof.
  intros Hne Hin Hp Hnear Hgood. rewrite ring_cell_value.
  assert (E1 : negb ((c0 cell =? c0 coords)%Z && (c1 cell =? c1 coords)%Z
                     && (c2 cell =? c2 coords)%Z) = true).
  { apply negb_true_iff. apply not_true_is_false. intro E.
    apply andb_true_iff in E. destruct E as [E E2].
    apply andb_true_iff in E. destruct E as [E0 E1].
    apply Z.eqb_eq in E0, E1, E2. apply Hne.
    destruct cell, coords. simpl in *. congruence. }
  assert (E2 : ((c0 cell <? c0 (_n_steps g))%Z && (c1 cell <? c1 (_n_steps g))%Z
                && (c2 cell <? c2 (_n_steps g))%Z) = true).
  { pose proof (Hin 0%nat ltac:(lia)) as I0.
    pose proof (Hin 1%nat ltac:(lia)) as I1.
    pose proof (Hin 2%nat ltac:(lia)) as I2.
    simpl in I0, I1, I2.
    rewrite !andb_true_iff, !Z.ltb_lt. tauto. }
  rewrite E1, E2. simpl andb.
  destruct (cell_in_array g cell); [|left; reflexivity]. right.
  destruct (scan_bucket _ _ _ _ _) as [[d q]|] eqn:Hscan.
  - pose proof (scan_bucket_min POINT getData sqrDist pnt _ d q Hscan p Hp)
      as Hmin.
    destruct (Qltb d (fst st)) eqn:E.
    + exists (d, Some q). split; [reflexivity|]. unfold Found. simpl.
      discriminate.
    + exists st. split; [reflexivity|]. unfold Found. intro Hnull.
      apply Qltb_false in E. rewrite (Hgood Hnull) in E. lra.
  - destruct (bucket g cell); [destruct Hp|discriminate Hscan].
Qed.

Lemma ring_pass_keeps (offset : size_t) (st : double * option POINT) :
  ring_pass POINT getData sqrDist pnt coords offset st g = (Undefined, g) \/
  exists st',
    ring_pass POINT getData sqrDist pnt coords offset st g = (Returned st', g)
    /\ (Good st -> Good st') /\ (Found st -> Found st').
Proof.
  unfold ring_pass, for_range.
  apply for_each_keeps. intros t0 st0.
  apply for_each_keeps. intros t1 st1.
  apply for_each_keeps. intros t2 st2.
  apply ring_cell_keeps.
Qed.

(** A pass whose box holds a cell with a point nearer than [sqr_min_dist]
    ends with a point. *)
Lemma ring_pass_finds (offset : size_t) (cell : vec3 size_t) (p : POINT)
    (st : double * option POINT) :
  (forall k, (k < 3)%nat ->
     (offset <= at3 coords k /\ at3 coords k + offset < size_t_modulus)%Z) ->
  (forall k, (k < 3)%nat ->
     (at3 coords k - offset <= at3 cell k < at3 coords k + offset)%Z) ->
  cell <> coords ->
  (forall k, (k < 3)%nat -> (at3 cell k < at3 (_n_steps g) k)%Z) ->
  In p (bucket g cell) ->
  sqrDist (getData p) pnt < d0 ->
  Good st ->
  ring_pass POINT getData sqrDist pnt coords offset st g = (Undefined, g) \/
  exists st',
    ring_pass POINT getData sqrDist pnt coords offset st g = (Returned st', g)
    /\ Found st'.
Proof.
  intros Hoff Hbox Hne Hin Hp Hnear Hgood.
  assert (Haxis : forall k, (k < 3)%nat ->
            In (at3 cell k) (range (wrap (at3 coords k - offset))
                                   (wrap (at3 coords k + offset)))).
  { intros k Hk. apply In_range.
    destruct (Hoff k Hk) as [O1 O2]. specialize (Hbox k Hk).
    rewrite !wrap_small by lia. exact Hbox. }
  pose proof (Haxis 0%nat ltac:(lia)) as A0.
  pose proof (Haxis 1%nat ltac:(lia)) as A1.
  pose proof (Haxis 2%nat ltac:(lia)) as A2.
  simpl at3 in A0, A1, A2.
  unfold ring_pass, for_range.
  apply (for_each_reaches _ Good Found _ _ g (c0 cell)); try assumption.
  { intros t0 st0.
    apply for_each_keeps. intros t1 st1.
    apply for_each_keeps. intros t2 st2.
    apply ring_cell_keeps. }
  intros st0 G0.
  apply (for_each_reaches _ Good Found _ _ g (c1 cell)); try assumption.
  { intros t1 st1.
    apply for_each_keeps. intros t2 st2.
    apply ring_cell_keeps. }
  intros st1 G1.
  apply (for_each_reaches _ Good Found _ _ g (c2 cell)); try assumption.
  { intros t2 st2. apply ring_cell_keeps. }
  intros st2 G2.
  replace (mk3 (c0 cell) (c1 cell) (c2 cell)) with cell
    by (destruct cell; reflexivity).
  apply (ring_cell_hits cell p st2); assumption.
Qed.

(** The search ends within as many passes as the offset of such a box. *)
Lemma ring_search_finds (n : nat) (offset : size_t) (cell : vec3 size_t)
    (p : POINT) (fuel : nat) :
  (1 <= offset)%Z ->
  (forall k, (k < 3)%nat ->
     (offset + Z.of_nat n <= at3 coords k
      /\ at3 coords k + offset + Z.of_nat n < size_t_modulus)%Z) ->
  (forall k, (k < 3)%nat ->
     (at3 coords k - (offset + Z.of_nat n) <= at3 cell k
      < at3 coords k + (offset + Z.of_nat n))%Z) ->
  cell <> coords ->
  (forall k, (k < 3)%nat -> (at3 cell k < at3 (_n_steps g) k)%Z) ->
  In p (bucket g cell) ->
  sqrDist (getData p) pnt < d0 ->
  (n < fuel)%nat ->
  ring_search POINT getData sqrDist fuel pnt coords offset d0 g
  = (Undefined, g) \/
  exists found,
    ring_search POINT getData sqrDist fuel pnt coords offset d0 g
    = (Returned found, g).
Proof.
  revert offset fuel.
  induction n as [|n IH]; intros offset fuel Hpos Hoff Hbox Hne Hin Hp Hnear
    Hfuel;
    (destruct fuel as [|fuel]; [lia|]); simpl ring_search; unfold bind.
  - destruct (ring_pass_finds offset cell p (d0, None))
      as [-> | [st' [-> Hf]]]; try assumption.
    + intros k Hk. specialize (Hoff k Hk). lia.
    + intros k Hk. specialize (Hbox k Hk). lia.
    + unfold Good. reflexivity.
    + left. reflexivity.
    + right. unfold Found in Hf.
      destruct (snd st') as [q|]; [|congruence].
      eexists. reflexivity.
  - destruct (ring_pass_keeps offset (d0, None))
      as [-> | [st' [-> [Hg _]]]]; [left; reflexivity|].
    destruct (snd st') as [q|] eqn:Hs; [right; eexists; reflexivity|].
    assert (Hd : fst st' = d0).
    { apply Hg; [unfold Good; reflexivity|exact Hs]. }
    rewrite Hd.
    pose proof (Hoff 0%nat ltac:(lia)) as [O1 O2].
    assert (Hw : wrap (offset + 1) = (offset + 1)%Z).
    { apply wrap_small. pose proof (wrap_bounds 0).
      unfold size_t_modulus in *. lia. }
    rewrite Hw.
    apply (IH (offset + 1)%Z fuel); try assumption; try lia.
    + intros k Hk. specialize (Hoff k Hk). lia.
    + intros k Hk. specialize (Hbox k Hk). lia.
Qed.

End RingFinds.

Section RingFindsQuery.

Variable POINT : Type.
Variable getData : POINT -> vec3 double.
Variable sqrDist : vec3 double -> vec3 double -> double.
Variable sqrt : double -> double.

(** X9. The ring search ends when a point is within its reach. For a query
    that [getGridCoords] resolves to the cell [coords], which is empty: when
    some cell of the grid in the box
    [coords[k] - d <= cell[k] < coords[k] + d], for a [d >= 1] that is at
    most every [coords[k]], holds a point nearer to the query than one
    diagonal of the box of the grid, as [sqrDist] gives it, then with fuel
    for [d] passes the call does not run out of fuel: it returns a point,
    or it ends in an undefined read. *)
Theorem getNearestPoint_ends_from_empty_cell (g : Grid POINT)
    (pnt : vec3 double) (d : Z) (coords cell : vec3 size_t) (p : POINT)
    (fuel : nat) :
  returns (getGridCoords pnt) g coords ->
  bucket g coords = [] ->
  (1 <= d)%Z ->
  (forall k, (k < 3)%nat ->
     (d <= at3 coords k /\ at3 coords k + d < size_t_modulus)%Z) ->
  (forall k, (k < 3)%nat ->
     (at3 coords k - d <= at3 cell k < at3 coords k + d)%Z) ->
  (forall k, (k < 3)%nat -> (at3 cell k < at3 (_n_steps g) k)%Z) ->
  In p (bucket g cell) ->
  sqrDist (getData p) pnt < sqrDist (_min_pnt g) (_max_pnt g) ->
  (Z.to_nat d <= fuel)%nat ->
  (exists res,
     getNearestPoint POINT getData sqrDist sqrt fuel pnt g
     = (Returned (Some res), g)) \/
  getNearestPoint POINT getData sqrDist sqrt fuel pnt g = (Undefined, g).
Proof.
  intros Hcoords Hempty Hd Hoff Hbox Hin Hp Hnear Hfuel.
  rewrite (returns_fun _ _ _ _ _ _ Hcoords (getGridCoords_returns _ _ g))
    in *.
  clear Hcoords coords.
  set (coords := grid_coords g pnt) in *.
  assert (Hne : cell <> coords).
  { intro E. rewrite E in Hp. rewrite Hempty in Hp. destruct Hp. }
  rewrite getNearestPoint_empty_cell by exact Hempty.
  fold coords.
  destruct (cell_in_array g coords); [|right; reflexivity].
  unfold bind.
  destruct (ring_search_finds POINT getData sqrDist g pnt coords
              (sqrDist (_min_pnt g) (_max_pnt g))
              (Z.to_nat (d - 1)) 1%Z cell p fuel) as [-> | [found ->]];
    try assumption; try lia.
  - intros k Hk. specialize (Hoff k Hk). lia.
  - intros k Hk. specialize (Hbox k Hk). lia.
  - right. reflexivity.
  - unfold nearest_in_cube, bind.
    rewrite getPointsWithinCube_value.
    destruct (cells_in_array g _ _); [left|right; reflexivity].
    eexists. reflexivity.
Qed.

End RingFindsQuery.

(** ** binarySearch *)

Section BinarySearchFacts.

Variable long_max : Z.

Lemma middle_between (start end_ : Z) :
  (start <= end_)%Z ->
  (start <= (start + end_) ÷ 2 <= end_)%Z.
Proof.
  intro Hle.
  pose proof (Z.quot_rem' (start + end_) 2) as Hqr.
  destruct (Z_le_gt_dec 0 (start + end_)) as [Hs|Hs].
  - pose proof (Z.rem_bound_pos (start + end_) 2 Hs ltac:(lia)). lia.
  - pose proof (Z.rem_bound_pos_neg (start + end_) 2 ltac:(lia) ltac:(lia)).
    lia.
Qed.

(** X10. What the search returns is -1 or an index between [start] and
    [end], inside of the array, at which the array holds the target:
    whatever the array, sorted or not. *)
Theorem binarySearch_returns_index_of_target (fuel : nat) (arr : list Z)
    (target start end_ r : Z) :
  binarySearch long_max fuel arr target start end_ = Returned r ->
  r = (-1)%Z \/
  ((start <= r <= end_)%Z /\ (0 <= r < Z.of_nat (length arr))%Z /\
   nth (Z.to_nat r) arr 0%Z = target).
Proof.
  revert start end_.
  induction fuel as [|fuel IH]; intros start end_; simpl; [discriminate|].
  destruct (Z.leb_spec start end_) as [Hle|Hgt].
  2:{ intro H. injection H as <-. left. reflexivity. }
  destruct (in_long long_max (start + end_)); [|discriminate].
  pose proof (middle_between start end_ Hle) as Hmid.
  destruct (_ && _) eqn:Hin; [|discriminate].
  apply andb_true_iff in Hin. destruct Hin as [H0 H1].
  apply Z.leb_le in H0. apply Z.ltb_lt in H1.
  destruct (Z.eqb_spec (nth (Z.to_nat ((start + end_) ÷ 2)) arr 0%Z) target)
    as [Heq|Hne].
  - intro H. injection H as <-. right.
    split; [lia|]. split; [lia|exact Heq].
  - destruct (Z.ltb_spec target (nth (Z.to_nat ((start + end_) ÷ 2)) arr 0%Z))
      as [Hlt|Hge].
    + destruct (in_long long_max _); [|discriminate].
      intro H. apply IH in H. destruct H as [H|[Hr H]]; [left; exact H|].
      right. split; [lia|exact H].
    + destruct (in_long long_max _); [|discriminate].
      intro H. apply IH in H. destruct H as [H|[Hr H]]; [left; exact H|].
      right. split; [lia|exact H].
Qed.

(** X11. On a part of the array that is sorted and lies inside of it, with
    indices whose sum fits a [long], the search returns within [end - start
    + 2] passes of its loop, and it returns -1 exactly when the target does
    not occur in the part. *)
Theorem binarySearch_finds_target_in_sorted_array (fuel : nat)
    (arr : list Z) (target start end_ : Z) :
  sorted_between arr start end_ ->
  (0 <= start)%Z ->
  (end_ < Z.of_nat (length arr))%Z ->
  (2 * Z.of_nat (length arr) <= long_max)%Z ->
  (Z.to_nat (end_ - start + 1) < fuel)%nat ->
  exists r,
    binarySearch long_max fuel arr target start end_ = Returned r /\
    (r = (-1)%Z <-> ~ occurs_between arr target start end_).
Proof.
  revert start end_.
  induction fuel as [|fuel IH]; intros start end_ Hsorted Hs He Hlen Hfuel;
    [lia|].
  simpl.
  destruct (Z.leb_spec start end_) as [Hle|Hgt].
  2:{ exists (-1)%Z. split; [reflexivity|].
      split; [|reflexivity]. intros _ [i [Hi _]]. lia. }
  assert (Hlong : forall z, (-1 <= z <= 2 * Z.of_nat (length arr))%Z ->
            in_long long_max z = true).
  { intros z Hz. unfold in_long.
    apply andb_true_iff. split; [apply Z.leb_le|apply Z.leb_le]; lia. }
  rewrite Hlong by lia.
  pose proof (middle_between start end_ Hle) as Hmid.
  set (middle := ((start + end_) ÷ 2)%Z) in *.
  assert (Hin : ((0 <=? middle)%Z && (middle <? Z.of_nat (length arr))%Z)
                = true).
  { apply andb_true_iff. split; [apply Z.leb_le|apply Z.ltb_lt]; lia. }
  rewrite Hin.
  destruct (Z.eqb_spec (nth (Z.to_nat middle) arr 0%Z) target) as [Heq|Hne].
  - exists middle. split; [reflexivity|].
    split; [lia|]. intro Hnone. exfalso. apply Hnone.
    exists middle. split; [lia|exact Heq].
  - destruct (Z.ltb_spec target (nth (Z.to_nat middle) arr 0%Z)) as [Hlt|Hge].
    + rewrite Hlong by lia.
      destruct (IH start (middle - 1)%Z) as [r [Hr Hiff]]; try lia.
      { intros i j Hi Hij Hj. apply Hsorted; lia. }
      exists r. split; [exact Hr|].
      rewrite Hiff. split; intros Hnone [i [Hi Hv]]; apply Hnone.
      * destruct (Z_lt_le_dec i middle) as [Hlow|Hhigh].
        -- exists i. split; [lia|exact Hv].
        -- exfalso.
           pose proof (Hsorted middle i ltac:(lia) Hhigh ltac:(lia)). lia.
      * exists i. split; [lia|exact Hv].
    + rewrite Hlong by lia.
      destruct (IH (middle + 1)%Z end_) as [r [Hr Hiff]]; try lia.
      { intros i j Hi Hij Hj. apply Hsorted; lia. }
      exists r. split; [exact Hr|].
      rewrite Hiff. split; intros Hnone [i [Hi Hv]]; apply Hnone.
      * destruct (Z_lt_le_dec middle i) as [Hhigh|Hlow].
        -- exists i. split; [lia|exact Hv].
        -- exfalso.
           pose proof (Hsorted i middle ltac:(lia) Hlow ltac:(lia)). lia.
      * exists i. split; [lia|exact Hv].
Qed.

End BinarySearchFacts.

(** * Closed instances

    The general statements above at concrete inputs, and the evaluations of
    the code that contradict a claim. *)

(** C9 at the grid of [cube9]: the query from the empty corner cell returns
    with fuel 2 and leaves the grid, and invoked again with fuel 3 on the
    grid it left it returns the same point. *)
Lemma queries_leave_grid_unchanged_witness :
  let g := build cube9 1%Z in
  let pnt := mk3 (5 # 2) (5 # 2) (5 # 2) in
  let first := getNearestPoint Pnt Pnt_getData sqrDist_ref sqrt_ref 2 pnt g in
  first = (Returned (Some (mk3 1 1 0)), g) /\
  getNearestPoint Pnt Pnt_getData sqrDist_ref sqrt_ref 3 pnt (snd first)
  = first.
Proof.
  intros g pnt first.
  assert (H2 : first = (Returned (Some (mk3 1 1 0)), g))
    by (vm_compute; reflexivity).
  split; [exact H2|].
  destruct (queries_leave_grid_unchanged Pnt Pnt_getData sqrDist_ref sqrt_ref
              2 3 pnt pnt 1 [] g) as [_ [_ [Hagain _]]].
  apply Hagain.
  - lia.
  - fold first. rewrite H2. discriminate.
Defined.

(** C10 at the grid of [cube9], where the call returns, and at the grid of
    [pair02] for a cube whose upper corner lies on the upper face of the
    box, where the call reads the vector of cell (1, 0, 0) in an array of
    one vector. *)
Lemma getPointsWithinCube_appends_witness :
  let q := mk3 7 7 7 in
  getPointsWithinCube Pnt (mk3 (5 # 2) (1 # 2) (1 # 2)) (1 # 2) [q]
    (build cube9 1%Z)
  = (Returned [q; mk3 3 0 0], build cube9 1%Z) /\
  getPointsWithinCube Pnt (mk3 (2000002 # 1000000) 0 0) 0 [q]
    (build pair02 512%Z)
  = (Undefined, build pair02 512%Z).
Proof.
  intro q. split.
  - rewrite (getPointsWithinCube_appends Pnt (mk3 (5 # 2) (1 # 2) (1 # 2))
               (1 # 2) [q] (build cube9 1%Z)
               (mk3 1%Z 0%Z 0%Z) (mk3 2%Z 0%Z 0%Z)).
    + vm_compute. reflexivity.
    + vm_compute. reflexivity.
    + vm_compute. reflexivity.
  - rewrite (getPointsWithinCube_appends Pnt (mk3 (2000002 # 1000000) 0 0)
               0 [q] (build pair02 512%Z)
               (mk3 1%Z 0%Z 0%Z) (mk3 1%Z 0%Z 0%Z)).
    + vm_compute. reflexivity.
    + vm_compute. reflexivity.
    + vm_compute. reflexivity.
Defined.

(** C2 at the grid of [line3]: the query (1.5, 0, 0) lies in the empty
    middle cell, whose vector lies in the array. *)
Lemma ring_search_never_ends_on_single_cell_axis_witness :
  let g := build line3 1%Z in
  let pnt := mk3 (3 # 2) 0 0 in
  at3 (grid_coords g pnt) 1 = 0%Z /\
  at3 (_n_steps g) 1 = 1%Z /\
  bucket g (grid_coords g pnt) = [] /\
  cell_in_array g (grid_coords g pnt) = true /\
  getNearestPoint Pnt Pnt_getData sqrDist_ref sqrt_ref 1000 pnt g
  = (OutOfFuel, g).
Proof.
  intros g pnt.
  assert (Hc : at3 (grid_coords g pnt) 1 = 0%Z) by (vm_compute; reflexivity).
  assert (Hn : at3 (_n_steps g) 1 = 1%Z) by (vm_compute; reflexivity).
  assert (He : bucket g (grid_coords g pnt) = []) by (vm_compute; reflexivity).
  assert (Hin : cell_in_array g (grid_coords g pnt) = true)
    by (vm_compute; reflexivity).
  split; [exact Hc|]. split; [exact Hn|]. split; [exact He|].
  split; [exact Hin|].
  rewrite (ring_search_never_ends_on_single_cell_axis Pnt Pnt_getData
             sqrDist_ref sqrt_ref g pnt 1 1000).
  - rewrite Hin. reflexivity.
  - lia.
  - exact Hc.
  - rewrite Hn. lia.
  - exact He.
Defined.

(** C1 at the grid of [cube9]: the query (100, 100, 100) resolves to the
    empty corner cell (2, 2, 2), whose vector lies in the array of 27. *)
Lemma getNearestPoint_never_returns_far_query_witness :
  let g := build cube9 1%Z in
  let pnt := mk3 100 100 100 in
  _n_steps g = mk3 3%Z 3%Z 3%Z /\
  grid_coords g pnt = mk3 2%Z 2%Z 2%Z /\
  (forall r,
     fst (getNearestPoint Pnt Pnt_getData sqrDist_ref sqrt_ref 1000 pnt g)
     <> Returned r) /\
  getNearestPoint Pnt Pnt_getData sqrDist_ref sqrt_ref 1000 pnt g
  = (OutOfFuel, g).
Proof.
  intros g pnt.
  split; [vm_compute; reflexivity|].
  split; [vm_compute; reflexivity|].
  destruct (getNearestPoint_never_returns_far_query Pnt Pnt_getData
              sqrDist_ref sqrt_ref pow_third_ref cube9 1%Z pnt 1000)
    as [Hnever Hruns].
  - discriminate.
  - lia.
  - vm_compute. reflexivity.
  - vm_compute. reflexivity.
  - intros p Hin. unfold cube9 in Hin. simpl in Hin.
    repeat (destruct Hin as [<-|Hin]; [vm_compute; discriminate|]).
    destruct Hin.
  - split; [exact Hnever|].
    apply Hruns; vm_compute; reflexivity.
Defined.

(** C6, amended, at two points of the second coordinate axis. *)
Lemma collinear_on_coordinate_axis_counts_witness :
  _n_steps (fst (Grid_ctor Pnt Pnt_getData sqrt_ref pow_third_ref pair_y 1%Z))
  = axis_counts 1 (Qceiling (Zd (Z.of_nat (length pair_y)) / Zd 1)) /\
  axis_counts 1 (Qceiling (Zd (Z.of_nat (length pair_y)) / Zd 1))
  = mk3 1%Z 2%Z 1%Z.
Proof.
  split; [|vm_compute; reflexivity].
  apply (collinear_on_coordinate_axis_counts Pnt Pnt_getData sqrt_ref
           pow_third_ref pair_y 1%Z 1).
  - discriminate.
  - lia.
  - vm_compute. reflexivity.
  - lia.
  - intros p j Hin Hj Hjk. simpl in Hin.
    destruct Hin as [<-|[<-|[]]];
      destruct j as [|[|[|j]]]; try lia; reflexivity.
  - right. vm_compute. discriminate.
Defined.

(** C6, counterexample. Two points on a line parallel to the first axis, at
    y = 1 and z = 0: the enlargement of the box gives axis 1 the extent 1e-6,
    the constructor takes its 2-d branch and cuts the first axis into 63
    cells, where ceil(2 / 512) is 1. And two points on the second coordinate
    axis, 1e-20 apart, with one point per cell: all three extents are below
    the machine epsilon, the first branch is taken, and it is the first axis
    that is cut in two. *)
Lemma collinear_counts_counterexample :
  (collinear_along 0 (mk3 0 1 0) (map Pnt_getData line_y1) /\
   _n_steps (build line_y1 512%Z) = mk3 63%Z 1%Z 1%Z /\
   ~ (exists k, (k < 3)%nat /\
        _n_steps (build line_y1 512%Z)
        = axis_counts k
            (Qceiling (Zd (Z.of_nat (length line_y1)) / Zd 512)))) /\
  (collinear_along 1 (mk3 0 0 0) (map Pnt_getData pair_y_close) /\
   _n_steps (build pair_y_close 1%Z) = mk3 2%Z 1%Z 1%Z /\
   _n_steps (build pair_y_close 1%Z)
   <> axis_counts 1 (Qceiling (Zd (Z.of_nat (length pair_y_close)) / Zd 1))).
Proof.
  split; split; [|split| |split].
  - intros p j Hin Hj Hjk. simpl in Hin.
    destruct Hin as [<-|[<-|[]]];
      destruct j as [|[|[|j]]]; try lia; try congruence; reflexivity.
  - vm_compute. reflexivity.
  - intros [k [Hk E]].
    destruct k as [|[|[|k]]]; [| | |lia]; vm_compute in E; discriminate.
  - intros p j Hin Hj Hjk. simpl in Hin.
    destruct Hin as [<-|[<-|[]]];
      destruct j as [|[|[|j]]]; try lia; try congruence; reflexivity.
  - vm_compute. reflexivity.
  - vm_compute. discriminate.
Qed.

(** ** The constructor on two points with small positive coordinates

    For the points 1e-17 and 2e-17 on the first axis the greatest coordinate
    stays below the machine epsilon after the relative enlargement, so line
    162 replaces it by the enlarged extent, 1.000003e-17: the upper corner
    of the box is below the second point. Its cell coordinate is 333333 in
    a grid of one cell. *)

(** C7. The constructor writes the message and goes on: the point whose
    cell coordinate is out of range is pushed through the index computed
    from it, outside of the allocated array of one bucket. *)
Theorem ctor_pushes_point_out_of_range :
  let g := build tiny 512%Z in
  _n_steps g = mk3 1%Z 1%Z 1%Z /\
  n_buckets g = 1%Z /\
  cell_coord (_min_pnt g) (_inverse_step_sizes g) tiny_p2 0 = 333333%Z /\
  build_log tiny 512%Z = [error_message] /\
  _grid_quad_to_node_map g 0%Z = [tiny_p1] /\
  _grid_quad_to_node_map g 333333%Z = [tiny_p2].
Proof.
  vm_compute. repeat split; reflexivity.
Qed.

(** C3. After that construction the sizes of the buckets of the array add
    up to 1 for 2 input points, and the assertion of the debug build does
    not hold. *)
Theorem bucket_sizes_sum_misses_point :
  let g := build tiny 512%Z in
  Z.of_nat (length tiny) = 2%Z /\
  bucket_sizes_sum g = 1%Z /\
  debug_assertion g (Z.of_nat (length tiny)) = false.
Proof.
  vm_compute. repeat split; reflexivity.
Qed.

(** C4. On that grid the cube of half length 0 around the second input
    point contains this point, and the cube query returns the first point
    only. *)
Theorem getPointsWithinCube_misses_point :
  let g := build tiny 512%Z in
  In tiny_p2 tiny /\
  c0 tiny_p2 - 0 <= c0 tiny_p2 <= c0 tiny_p2 + 0 /\
  c1 tiny_p2 - 0 <= c1 tiny_p2 <= c1 tiny_p2 + 0 /\
  c2 tiny_p2 - 0 <= c2 tiny_p2 <= c2 tiny_p2 + 0 /\
  returns (getPointsWithinCube Pnt tiny_p2 0 []) g [tiny_p1] /\
  ~ In tiny_p2 [tiny_p1].
Proof.
  intro g.
  split; [right; left; reflexivity|].
  split; [split; vm_compute; discriminate|].
  split; [split; vm_compute; discriminate|].
  split; [split; vm_compute; discriminate|].
  split; [vm_compute; reflexivity|].
  intros [H|[]]. discriminate H.
Qed.

(** ** A query on the upper face of the box *)

(** C5. For the grid of the points (0,0,0) and (2,0,0), one cell on every
    axis, the query coordinate 2.000002 is the upper corner of the box on
    the first axis: it is not greater than the corner, so it is not clamped,
    and the quotient gives the cell coordinate 1, which is the cell count. *)
Theorem getGridCoords_on_upper_face :
  let g := build pair02 512%Z in
  let pnt := mk3 (2000002 # 1000000) 0 0 in
  c0 pnt == c0 (_max_pnt g) /\
  _n_steps g = mk3 1%Z 1%Z 1%Z /\
  returns (getGridCoords pnt) g (mk3 1%Z 0%Z 0%Z).
Proof.
  vm_compute. repeat split; reflexivity.
Qed.

(** ** The distances to the faces of a cell that is not the first *)

(** C8. In the grid of [line3] the query (1.5, 0, 0) lies in the cell
    (1, 0, 0), between the planes x = 1.000001 and x = 2.000002. The method
    adds [coords[0] * _step_sizes[0]] where the plane needs it subtracted:
    it returns 2.500001 for the left face and -1.5 for the right face, the
    distances being 0.499999 and 0.500002. *)
Theorem border_distances_in_second_cell :
  let g := build line3 1%Z in
  let pnt := mk3 (3 # 2) 0 0 in
  let coords := mk3 1%Z 0%Z 0%Z in
  grid_coords g pnt = coords /\
  lower_plane g coords 0 == 1000001 # 1000000 /\
  upper_plane g coords 0 == 2000002 # 1000000 /\
  dist_left (perpendicular_distances g pnt coords) == 499999 # 1000000 /\
  dist_right (perpendicular_distances g pnt coords) == 500002 # 1000000 /\
  exists d,
    returns (getPointCellBorderDistances pnt coords) g d /\
    dist_left d == 2500001 # 1000000 /\
    dist_right d == - (3 # 2).
Proof.
  intros g pnt coords.
  split; [vm_compute; reflexivity|].
  split; [vm_compute; reflexivity|].
  split; [vm_compute; reflexivity|].
  split; [vm_compute; reflexivity|].
  split; [vm_compute; reflexivity|].
  destruct (getPointCellBorderDistances_returns Pnt pnt coords g) as [d Hd].
  exists d. split; [exact Hd|].
  unfold returns in Hd. vm_compute in Hd.
  injection Hd as Hd. subst d.
  split; vm_compute; reflexivity.
Qed.

(** ** Instances of the positive results *)

(** X1 at the grid of [cube9]. *)
Lemma bucket_sizes_sum_when_no_error_witness :
  build_log cube9 1%Z = [] /\
  bucket_sizes_sum (build cube9 1%Z) = Z.of_nat (length cube9).
Proof.
  split; [vm_compute; reflexivity|].
  apply (bucket_sizes_sum_when_no_error Pnt Pnt_getData sqrt_ref pow_third_ref
           cube9 1%Z).
  - lia.
  - vm_compute. reflexivity.
  - vm_compute. reflexivity.
Defined.

(** X2 at the grid of [cube9]: the cube of half length 1 around
    (0.5, 0.5, 0.5) and the point (1, 1, 0) of the cell (0, 0, 0). *)
Lemma cube_query_returns_stored_points_witness :
  let g := build cube9 1%Z in
  let center := mk3 (1 # 2) (1 # 2) (1 # 2) in
  let p := mk3 1 1 0 in
  In p cube9 /\
  exists res,
    returns (getPointsWithinCube Pnt center 1 []) g res /\ In p res.
Proof.
  intros g center p.
  assert (Hp : In p cube9) by (unfold cube9, p; simpl; tauto).
  split; [exact Hp|].
  apply (cube_query_returns_stored_points Pnt Pnt_getData sqrt_ref
           pow_third_ref cube9 1%Z center 1 [] p
           (mk3 0%Z 0%Z 0%Z) (mk3 1%Z 1%Z 1%Z) Hp).
  - vm_compute. reflexivity.
  - vm_compute. reflexivity.
  - intros k Hk.
    destruct k as [|[|[|k]]]; [| | |lia];
      (split; [split|]; vm_compute; congruence).
  - vm_compute. reflexivity.
Defined.

(** X4 at the grid of [line3], for a point of the first cell. *)
Lemma border_distances_in_first_cell_witness :
  let g := build line3 1%Z in
  let pnt := mk3 (1 # 2) 0 0 in
  let coords := mk3 0%Z 0%Z 0%Z in
  grid_coords g pnt = coords /\
  exists d,
    returns (getPointCellBorderDistances pnt coords) g d /\
    dists_eq d (perpendicular_distances g pnt coords).
Proof.
  intros g pnt coords.
  split; [vm_compute; reflexivity|].
  apply (border_distances_in_first_cell Pnt g pnt coords).
  - intros k Hk.
    destruct k as [|[|[|k]]]; [vm_compute; reflexivity ..|lia].
  - intros k Hk.
    destruct k as [|[|[|k]]]; [| | |lia]; split; vm_compute; discriminate.
Defined.

(** X5 at the grid of [cube9], for the query of the instance of C9. *)
Lemma getNearestPoint_returns_an_input_point_witness :
  let g := build cube9 1%Z in
  let pnt := mk3 (5 # 2) (5 # 2) (5 # 2) in
  let res := Some (mk3 1 1 0) in
  getNearestPoint Pnt Pnt_getData sqrDist_ref sqrt_ref 2 pnt g
  = (Returned res, g) /\
  exists nearest, res = Some nearest /\ In nearest cube9.
Proof.
  intros g pnt res.
  assert (Hret : getNearestPoint Pnt Pnt_getData sqrDist_ref sqrt_ref 2 pnt g
                 = (Returned res, g)) by (vm_compute; reflexivity).
  split; [exact Hret|].
  exact (getNearestPoint_returns_an_input_point Pnt Pnt_getData sqrDist_ref
           sqrt_ref pow_third_ref cube9 1%Z 2 pnt res g Hret).
Defined.

(** X6 at the grid of the empty collection. *)
Lemma queries_on_grid_without_points_witness :
  let g := build [] 1%Z in
  let pnt := mk3 0 0 0 in
  (forall idx, _grid_quad_to_node_map g idx = []) /\
  (forall r,
     fst (getNearestPoint Pnt Pnt_getData sqrDist_ref sqrt_ref 5 pnt g)
     <> Returned r) /\
  (getPointsWithinCube Pnt pnt 1 [pnt] g = (Returned [pnt], g) \/
   getPointsWithinCube Pnt pnt 1 [pnt] g = (Undefined, g)).
Proof.
  intros g pnt.
  assert (Hnone : forall idx, _grid_quad_to_node_map g idx = [])
    by (intro idx; reflexivity).
  split; [exact Hnone|].
  exact (queries_on_grid_without_points Pnt Pnt_getData sqrDist_ref sqrt_ref
           g 5 pnt pnt 1 [pnt] Hnone).
Defined.

(** X7 at the grid of [cube9]: the cell (0, 0, 0) holds six points, of
    which (1, 0, 0) and (1, 1, 0) are at the least squared distance, 5/16,
    from (0.75, 0.5, 0); the scan returns (1, 0, 0), the first of them. *)
Lemma calcNearestPointInGridCell_first_nearest_witness :
  let g := build cube9 1%Z in
  let pnt := mk3 (3 # 4) (1 # 2) 0 in
  let coords := mk3 0%Z 0%Z 0%Z in
  bucket g coords
  = [mk3 0 0 0; mk3 1 0 0; mk3 0 1 0; mk3 0 0 1; mk3 1 1 0; mk3 1 0 1] /\
  match fst (calcNearestPointInGridCell Pnt Pnt_getData sqrDist_ref pnt
               coords g) with
  | Returned (Some (d, p)) => p = mk3 1 0 0 /\ d == 5 # 16
  | _ => False
  end /\
  exists found,
    returns (calcNearestPointInGridCell Pnt Pnt_getData sqrDist_ref pnt
               coords) g found /\
    match found with
    | None => bucket g coords = []
    | Some (d, p) =>
        d = sqrDist_ref (Pnt_getData p) pnt /\
        exists pre post,
          bucket g coords = pre ++ p :: post /\
          (forall q, In q pre -> d < sqrDist_ref (Pnt_getData q) pnt) /\
          (forall q, In q post -> d <= sqrDist_ref (Pnt_getData q) pnt)
    end.
Proof.
  intros g pnt coords.
  split; [vm_compute; reflexivity|].
  split; [vm_compute; split; reflexivity|].
  apply (calcNearestPointInGridCell_first_nearest Pnt Pnt_getData sqrDist_ref
           pnt coords g).
  vm_compute. reflexivity.
Defined.

(** X8 at the grid of [cube9]. *)
Lemma cube_query_reports_each_point_once_witness :
  let g := build cube9 1%Z in
  let center := mk3 (1 # 2) (1 # 2) (1 # 2) in
  NoDup cube9 /\
  exists res,
    returns (getPointsWithinCube Pnt center 1 []) g res /\
    NoDup res /\
    forall p, In p res -> In p cube9.
Proof.
  intros g center.
  assert (Hnd : NoDup cube9).
  { unfold cube9.
    repeat (constructor;
            [simpl; intro H;
             repeat (destruct H as [H|H]; [discriminate H|]); exact H|]).
    constructor. }
  split; [exact Hnd|].
  apply (cube_query_reports_each_point_once Pnt Pnt_getData sqrt_ref
           pow_third_ref cube9 1%Z center 1 (mk3 1%Z 1%Z 1%Z) Hnd).
  - vm_compute. reflexivity.
  - intros k Hk.
    destruct k as [|[|[|k]]]; [vm_compute; reflexivity ..|lia].
  - vm_compute. reflexivity.
Defined.

(** X9 at the grid of [cube9]: the query (2.5, 2.5, 2.5) lies in the empty
    cell (2, 2, 2); the cell (0, 0, 0) holds the point (1, 1, 0), at the
    squared distance 10.75 where the squared diagonal is about 27, and is
    reached by the pass of offset 2. *)
Lemma getNearestPoint_ends_from_empty_cell_witness :
  let g := build cube9 1%Z in
  let pnt := mk3 (5 # 2) (5 # 2) (5 # 2) in
  let cell := mk3 0%Z 0%Z 0%Z in
  let p := mk3 1 1 0 in
  grid_coords g pnt = mk3 2%Z 2%Z 2%Z /\
  bucket g (grid_coords g pnt) = [] /\
  In p (bucket g cell) /\
  ((exists res,
      getNearestPoint Pnt Pnt_getData sqrDist_ref sqrt_ref 2 pnt g
      = (Returned (Some res), g)) \/
   getNearestPoint Pnt Pnt_getData sqrDist_ref sqrt_ref 2 pnt g
   = (Undefined, g)).
Proof.
  intros g pnt cell p.
  assert (Hc : grid_coords g pnt = mk3 2%Z 2%Z 2%Z) by (vm_compute; reflexivity).
  assert (He : bucket g (grid_coords g pnt) = []) by (vm_compute; reflexivity).
  assert (Hp : In p (bucket g cell)) by (vm_compute; tauto).
  split; [exact Hc|]. split; [exact He|]. split; [exact Hp|].
  apply (getNearestPoint_ends_from_empty_cell Pnt Pnt_getData sqrDist_ref
           sqrt_ref g pnt 2 (mk3 2%Z 2%Z 2%Z) cell p 2).
  - vm_compute. reflexivity.
  - rewrite <- Hc. exact He.
  - lia.
  - intros k Hk.
    destruct k as [|[|[|k]]]; [| | |lia]; simpl; unfold size_t_modulus; lia.
  - intros k Hk.
    destruct k as [|[|[|k]]]; [| | |lia]; simpl; lia.
  - intros k Hk.
    destruct k as [|[|[|k]]]; [| | |lia]; vm_compute; reflexivity.
  - exact Hp.
  - vm_compute. reflexivity.
  - simpl. lia.
Defined.

(** X10 on the array 1, 3, 5, 7 with a 64-bit [long]. *)
Lemma binarySearch_returns_index_of_target_witness :
  binarySearch (2 ^ 63 - 1) 5 [1; 3; 5; 7]%Z 5 0 3 = Returned 2%Z /\
  (2%Z = (-1)%Z \/
   ((0 <= 2 <= 3)%Z /\ (0 <= 2 < Z.of_nat (length [1; 3; 5; 7]%Z))%Z /\
    nth (Z.to_nat 2) [1; 3; 5; 7]%Z 0%Z = 5%Z)).
Proof.
  assert (H : binarySearch (2 ^ 63 - 1) 5 [1; 3; 5; 7]%Z 5 0 3 = Returned 2%Z)
    by (vm_compute; reflexivity).
  split; [exact H|].
  exact (binarySearch_returns_index_of_target (2 ^ 63 - 1) 5 [1; 3; 5; 7]%Z
           5 0 3 2 H).
Defined.

(** X11 on the same array, for a target that does not occur in it. *)
Lemma binarySearch_finds_target_in_sorted_array_witness :
  exists r,
    binarySearch (2 ^ 63 - 1) 5 [1; 3; 5; 7]%Z 4 0 3 = Returned r /\
    (r = (-1)%Z <-> ~ occurs_between [1; 3; 5; 7]%Z 4 0 3).
Proof.
  apply (binarySearch_finds_target_in_sorted_array (2 ^ 63 - 1) 5
           [1; 3; 5; 7]%Z 4 0 3).
  - intros i j Hi Hij Hj.
    assert (Ei : (i = 0 \/ i = 1 \/ i = 2 \/ i = 3)%Z) by lia.
    assert (Ej : (j = 0 \/ j = 1 \/ j = 2 \/ j = 3)%Z) by lia.
    destruct Ei as [-> | [-> | [-> | ->]]];
      destruct Ej as [-> | [-> | [-> | ->]]];
      simpl; lia.
  - lia.
  - simpl. lia.
  - simpl. lia.
  - simpl. lia.
Defined.
